(** * smtp-dashboard: the ingestion, scoring, aggregation and broadcast pipeline

    A shallow embedding of [spam_model.py], [main.py] and [smtp_handler.py].

    - Python [str] values are lists of Unicode code points.  Everything the
      code does on ASCII is written out; what Python's Unicode database
      decides beyond ASCII (case mapping, the classes behind [\b], [\d] and
      [\S]) is a parameter [U : UnicodeDB] of the development.
    - Python [float] is IEEE-754 binary64: the scores are primitive floats
      and are added exactly as the interpreter adds them.
    - Exceptions are values.  A synchronous call returns a [result]: a value
      or a raised instance of [Exception].  An [await] returns an [awaited]:
      a value, a raised instance of [Exception], or a [BaseException] that
      is not one, which is how the cancellation of the running task
      ([asyncio.CancelledError]) arrives.  [except Exception] catches the
      second and lets the third through.
    - The standard [email] package, the trained scikit-learn pipeline, JSON
      serialisation and the websocket transport are collaborators outside
      the repository: they appear as records of operations.  *)

From Stdlib Require Import List NArith ZArith Bool Arith Lia.
From Stdlib Require Import Strings.String Strings.Ascii.
From Stdlib Require Import Numbers.DecimalString.
From Stdlib Require Import PrimFloat.
From Stdlib Require Import Sorting.Sorted Sorting.Permutation.
Import ListNotations.

Set Implicit Arguments.

(** Decimal literals such as 0.15 denote the nearest binary64 value, as
    they do in Python. *)
Set Warnings "-inexact-float".

(* ================================================================== *)
(** ** Exceptions *)

(** A raised exception that is an instance of [Exception]: its class name
    and its message. *)
Inductive exn : Type := Exn (kind : string) (msg : string).

(** A raised [BaseException] that is not an instance of [Exception]:
    [asyncio.CancelledError], delivered at an [await] when the task is
    cancelled. *)
Inductive base_exn : Type := BaseExn (kind : string) (msg : string).

Inductive result (A : Type) : Type :=
| Ok (a : A)
| Raise (e : exn).

Arguments Ok {A} a.
Arguments Raise {A} e.

Definition bind {A B : Type} (m : result A) (k : A -> result B) : result B :=
  match m with
  | Ok a => k a
  | Raise e => Raise e
  end.

Notation "x <- m ;; k" := (bind m (fun x => k))
  (at level 61, m at next level, right associativity).

Definition returns {A : Type} (m : result A) : Prop := exists a, m = Ok a.

(** What awaiting a coroutine gives. *)
Inductive awaited (A : Type) : Type :=
| Returned (a : A)
| Failed (e : exn)
| Cancelled (b : base_exn).

Arguments Returned {A} a.
Arguments Failed {A} e.
Arguments Cancelled {A} b.

Definition is_returned {A : Type} (r : awaited A) : bool :=
  match r with Returned _ => true | _ => false end.

Definition is_cancelled {A : Type} (r : awaited A) : bool :=
  match r with Cancelled _ => true | _ => false end.

(* ================================================================== *)
(** ** Python strings *)

Definition codepoint := N.
Definition str := list codepoint.

(** A literal of the source, as a [str]. *)
Definition lit (s : string) : str := map N_of_ascii (list_ascii_of_string s).

(** A character of the source, as a code point. *)
Definition chr (a : ascii) : codepoint := N_of_ascii a.

Definition str_eqb (a b : str) : bool :=
  if list_eq_dec N.eq_dec a b then true else false.

(** What Python takes from the Unicode database for a code point that is
    not ASCII.  [uni_lower before c after] is the lower-casing of [c] in its
    context ([before] is the text to its left, nearest character first):
    [str.lower] may produce several code points and looks at the context of
    a capital sigma. *)
Record UnicodeDB : Type := {
  uni_lower : list codepoint -> codepoint -> list codepoint -> list codepoint;
  uni_isalnum : codepoint -> bool;
  uni_isdecimal : codepoint -> bool;
  uni_isspace : codepoint -> bool
}.

(** A database in which no code point beyond ASCII has any property; used
    for closed examples, whose texts are ASCII. *)
Definition plain_db : UnicodeDB :=
  {| uni_lower := fun _ c _ => [c];
     uni_isalnum := fun _ => false;
     uni_isdecimal := fun _ => false;
     uni_isspace := fun _ => false |}.

Definition is_ascii (c : codepoint) : bool := (c <? 128)%N.

Definition in_range (lo hi c : N) : bool := ((lo <=? c) && (c <=? hi))%N.

Definition ascii_lower (c : codepoint) : codepoint :=
  if in_range 65 90 c then (c + 32)%N else c.

Section Text.

Variable U : UnicodeDB.

(** [str.lower()] *)
Fixpoint lower_from (before : list codepoint) (s : str) : str :=
  match s with
  | [] => []
  | c :: after =>
      (if is_ascii c then [ascii_lower c] else uni_lower U before c after)
        ++ lower_from (c :: before) after
  end.

Definition lower (s : str) : str := lower_from [] s.

(** The class [\w] of a [str] pattern: alphanumeric or underscore. *)
Definition is_word (c : codepoint) : bool :=
  if is_ascii c
  then in_range 48 57 c || in_range 65 90 c || in_range 97 122 c || (c =? 95)%N
  else uni_isalnum U c.

(** The class [\d]: a decimal digit. *)
Definition is_digit (c : codepoint) : bool :=
  if is_ascii c then in_range 48 57 c else uni_isdecimal U c.

(** The class [\s]: tab to carriage return, the four separators
    0x1c..0x1f and the space, or Unicode white space. *)
Definition is_space (c : codepoint) : bool :=
  if is_ascii c
  then in_range 9 13 c || in_range 28 31 c || (c =? 32)%N
  else uni_isspace U c.

(* ------------------------------------------------------------------ *)
(** ** The fragment of [re] the source uses

    Every pattern of [spam_model.py] is a sequence of items: a character
    class under a greedy quantifier, or the zero-width assertion [\b]. *)

Inductive cls : Type :=
| Chr (c : codepoint)   (* a literal character *)
| Digit                 (* \d *)
| NonSpace.             (* \S *)

Inductive item : Type :=
| Boundary                                   (* \b *)
| Rep (a : cls) (lo : nat) (hi : option nat). (* a{lo,hi}, greedy *)

Definition regex := list item.

Definition one (a : cls) : item := Rep a 1 (Some 1).      (* a *)
Definition opt (a : cls) : item := Rep a 0 (Some 1).      (* a? *)
Definition plus (a : cls) : item := Rep a 1 None.         (* a+ *)
Definition at_least (n : nat) (a : cls) : item := Rep a n None. (* a{n,} *)

(** The pattern made of the characters of a literal. *)
Definition lits (s : string) : regex := map (fun c => one (Chr c)) (lit s).

Definition cls_match (a : cls) (c : codepoint) : bool :=
  match a with
  | Chr c' => (c =? c')%N
  | Digit => is_digit c
  | NonSpace => negb (is_space c)
  end.

Definition word_opt (c : option codepoint) : bool :=
  match c with Some c => is_word c | None => false end.

(** [\b] holds between [prev] and [next] when exactly one is a word
    character; the two ends of the text count as non-word. *)
Definition at_boundary (prev next : option codepoint) : bool :=
  xorb (word_opt prev) (word_opt next).

(** A greedy repetition followed by the continuation [k]: take one more
    character when allowed, and give it back when the rest fails.  The
    result is the text left after the whole match. *)
Fixpoint match_rep (k : option codepoint -> str -> option str)
    (a : cls) (lo : nat) (hi : option nat)
    (prev : option codepoint) (s : str) {struct s} : option str :=
  let stop := match lo with O => k prev s | S _ => None end in
  match hi with
  | Some O => stop
  | _ =>
      match s with
      | [] => stop
      | c :: s' =>
          if cls_match a c then
            match match_rep k a (pred lo) (option_map pred hi) (Some c) s' with
            | Some r => Some r
            | None => stop
            end
          else stop
      end
  end.

Fixpoint match_at (r : regex) : option codepoint -> str -> option str :=
  match r with
  | [] => fun _ s => Some s
  | Boundary :: r' =>
      fun prev s => if at_boundary prev (hd_error s) then match_at r' prev s else None
  | Rep a lo hi :: r' => match_rep (match_at r') a lo hi
  end.

(** [re.search(r, s)] as a truth value: is there a match at some position. *)
Fixpoint search_from (r : regex) (prev : option codepoint) (s : str) : bool :=
  match match_at r prev s with
  | Some _ => true
  | None =>
      match s with
      | [] => false
      | c :: s' => search_from r (Some c) s'
      end
  end.

Definition re_search (r : regex) (s : str) : bool := search_from r None s.

(** [r.findall(s)]: the non-overlapping matches, scanning left to right;
    [skip] counts the characters of the current match still to pass. *)
Fixpoint findall_from (r : regex) (prev : option codepoint) (s : str)
    (skip : nat) : list str :=
  match s with
  | [] =>
      match skip, match_at r prev [] with
      | O, Some _ => [[]]
      | _, _ => []
      end
  | c :: s' =>
      match skip with
      | S n => findall_from r (Some c) s' n
      | O =>
          match match_at r prev s with
          | Some rest =>
              let len := (List.length s - List.length rest)%nat in
              firstn len s :: findall_from r (Some c) s' (pred len)
          | None => findall_from r (Some c) s' 0
          end
      end
  end.

Definition re_findall (r : regex) (s : str) : list str := findall_from r None s 0.

(* ------------------------------------------------------------------ *)
(** ** spam_model.py: the rule-based detector *)

Definition SPAM_KEYWORDS : list regex :=
  [ lits "free" ++ [Boundary];
    lits "buy now";
    lits "limited time";
    lits "winner";
    lits "congratulat";
    lits "claim prize";
    lits "click here";
    lits "urgent";
    lits "act now";
    lits "cheap" ++ [Boundary];
    [one (Chr (chr "$")); plus Digit];
    lits "viagra";
    lits "lottery" ].

(** [https?://\S+] *)
Definition URL_RE : regex :=
  lits "http" ++ [opt (Chr (chr "s"))] ++ lits "://" ++ [plus NonSpace].

(** [!{2,}] *)
Definition EXCLAMATION_RE : regex := [at_least 2 (Chr (chr "!"))].

Record Verdict : Type := { is_spam : bool; score : float }.

(** [min(a, b)] of the interpreter: [b] when [b < a], else [a]. *)
Definition py_min (a b : float) : float := if PrimFloat.ltb b a then b else a.

(** One turn of the keyword loop. *)
Definition kw_step (text_l : str) (sc : float) (kw : regex) : float :=
  if re_search kw text_l then PrimFloat.add sc 0.25 else sc.

(** The score when the keyword loop ends. *)
Definition keyword_score (text : str) : float :=
  fold_left (kw_step (lower text)) SPAM_KEYWORDS 0%float.

Definition rule_based_detection (text : str) : Verdict :=
  let score := keyword_score text in
  let score :=
    if re_search EXCLAMATION_RE text then PrimFloat.add score 0.15 else score in
  let urls := re_findall URL_RE text in
  let score :=
    if (2 <=? List.length urls)%nat then PrimFloat.add score 0.2
    else if (List.length urls =? 1)%nat then PrimFloat.add score 0.08
    else score in
  let score := py_min score 1 in
  {| is_spam := PrimFloat.leb 0.5 score; score := score |}.

(** The trained pipeline is an opaque artifact: [predict_proba([txt])[0][1]]
    either gives a probability or raises. *)
Record SpamModel : Type := { pipeline : option (str -> result float) }.

(** [SpamModel.predict]; [text] may be [None]. *)
Definition predict (self : SpamModel) (text : option str) : result Verdict :=
  let txt := match text with
             | Some ((_ :: _) as t) => t
             | _ => []
             end in
  match pipeline self with
  | Some predict_proba =>
      proba <- predict_proba txt ;;
      Ok {| is_spam := PrimFloat.leb 0.5 proba; score := proba |}
  | None => Ok (rule_based_detection txt)
  end.

End Text.

(* ================================================================== *)
(** ** main.py: parsing a delivery *)

Definition bytes := list Byte.byte.

(** What [get_content()] hands back: a [str] for a text part, some other
    object (bytes, a nested message) otherwise, kept by its [str()]. *)
Inductive content : Type :=
| CStr (s : str)
| CObj (repr : str).

(** [str(x)] *)
Definition py_str (c : content) : str :=
  match c with CStr s => s | CObj r => r end.

(** The operations of the standard [email] package that [parse_email]
    calls on a parsed message, under [policy.default].  Header access and
    content extraction may raise. *)
Record EmailLib : Type := {
  EmailMessage : Type;
  parsebytes : bytes -> result EmailMessage;
  msg_get : EmailMessage -> str -> result (option str);
  is_multipart : EmailMessage -> bool;
  walk : EmailMessage -> list EmailMessage;
  get_content_type : EmailMessage -> str;
  get_content : EmailMessage -> result content;
  decode_replace : bytes -> str   (* bytes.decode(errors='replace') *)
}.

(** The dict that [parse_email] returns. *)
Record ParsedMessage : Type := {
  subject : str;
  from_ : str;
  to_ : str;
  body : str;
  raw : str
}.

(** [sep.join(parts)] on strings. *)
Fixpoint join (sep : str) (parts : list str) : str :=
  match parts with
  | [] => []
  | [p] => p
  | p :: ps => p ++ sep ++ join sep ps
  end.

(** [sep.join(parts)] on objects: a [TypeError] unless every one is a [str]. *)
Fixpoint strs_of (parts : list content) : result (list str) :=
  match parts with
  | [] => Ok []
  | CStr s :: ps => ss <- strs_of ps ;; Ok (s :: ss)
  | CObj _ :: _ => Raise (Exn "TypeError" "sequence item: expected str instance")
  end.

Definition join_contents (sep : str) (parts : list content) : result str :=
  ss <- strs_of parts ;; Ok (join sep ss).

(** [x or empty] for a header value that may be [None]. *)
Definition or_empty (v : option str) : str :=
  match v with Some s => s | None => [] end.

Definition NEWLINE : str := [10%N].

Section Parse.

Variable L : EmailLib.

(** The loop over [msg.walk()] collecting the text/plain parts. *)
Fixpoint plain_parts (ps : list (EmailMessage L)) : result (list content) :=
  match ps with
  | [] => Ok []
  | p :: ps' =>
      if str_eqb (get_content_type L p) (lit "text/plain") then
        c <- get_content L p ;;
        cs <- plain_parts ps' ;;
        Ok (c :: cs)
      else plain_parts ps'
  end.

(** The plain-text body, "best effort": the branch on [msg.is_multipart()]. *)
Definition body_of (msg : EmailMessage L) : result content :=
  if is_multipart L msg then
    parts <- plain_parts (walk L msg) ;;
    b <- join_contents NEWLINE parts ;;
    Ok (CStr b)
  else get_content L msg.

Definition parse_email (msg_bytes : bytes) : result ParsedMessage :=
  msg <- parsebytes L msg_bytes ;;
  subject <- msg_get L msg (lit "subject") ;;
  from_ <- msg_get L msg (lit "from") ;;
  to_ <- msg_get L msg (lit "to") ;;
  body <- body_of msg ;;
  Ok {| subject := or_empty subject;
        from_ := or_empty from_;
        to_ := or_empty to_;
        body := py_str body;
        raw := decode_replace L msg_bytes |}.

End Parse.

(* ================================================================== *)
(** ** main.py: the shared statistics *)

Record SmtpStatus : Type := { listening : bool; host : string; port : Z }.

Record Event : Type := {
  ev_time : str;
  ev_from : str;
  ev_from_header : str;
  ev_to : list str;
  ev_subject : str;
  ev_is_spam : bool;
  ev_score : float
}.

(** A [collections.Counter]: a dict, which keeps its keys in the order of
    their first insertion. *)
Definition Counter := list (str * Z).

(** [counter[k] += 1] *)
Fixpoint counter_incr (k : str) (d : Counter) : Counter :=
  match d with
  | [] => [(k, 1%Z)]
  | (k', c) :: d' =>
      if str_eqb k k' then (k', (c + 1)%Z) :: d' else (k', c) :: counter_incr k d'
  end.

(** [counter[k]] *)
Fixpoint counter_get (k : str) (d : Counter) : Z :=
  match d with
  | [] => 0%Z
  | (k', c) :: d' => if str_eqb k k' then c else counter_get k d'
  end.

(** [sum(counter.values())] *)
Definition counter_total (d : Counter) : Z :=
  fold_right (fun kc acc => (snd kc + acc)%Z) 0%Z d.

(** [sorted(items, key=itemgetter(1), reverse=True)]: a stable sort, so
    items of equal count keep the order they had. *)
Fixpoint insert_desc (x : str * Z) (l : list (str * Z)) : list (str * Z) :=
  match l with
  | [] => [x]
  | y :: l' => if (snd x <? snd y)%Z then y :: insert_desc x l' else x :: l
  end.

Fixpoint sort_desc (l : list (str * Z)) : list (str * Z) :=
  match l with
  | [] => []
  | x :: l' => insert_desc x (sort_desc l')
  end.

(** [Counter.most_common(n)], that is [heapq.nlargest(n, items, key)], which
    is the first [n] items of the sort above. *)
Definition most_common (n : nat) (d : Counter) : list (str * Z) :=
  firstn n (sort_desc d).

Definition EVENTS_MAXLEN : nat := 200.

(** [deque.appendleft] on a deque of bounded length: a full deque drops
    its rightmost item. *)
Definition appendleft {A : Type} (maxlen : nat) (x : A) (q : list A) : list A :=
  if (List.length q <? maxlen)%nat then x :: q else x :: removelast q.

Record Stats : Type := {
  total_emails : Z;
  spam_count : Z;
  domains : Counter;
  events : list Event;
  smtp_status : SmtpStatus
}.

Definition SMTP_HOST : string := "0.0.0.0".
Definition SMTP_PORT : Z := 1025.

Definition initial_stats : Stats :=
  {| total_emails := 0;
     spam_count := 0;
     domains := [];
     events := [];
     smtp_status := {| listening := false; host := SMTP_HOST; port := SMTP_PORT |} |}.

(** The snapshot of [summary_stats]. *)
Record Summary : Type := {
  s_total_emails : Z;
  s_spam_count : Z;
  s_top_domains : list (str * Z);
  s_smtp_status : SmtpStatus
}.

Definition summary_stats (stats : Stats) : Summary :=
  {| s_total_emails := total_emails stats;
     s_spam_count := spam_count stats;
     s_top_domains := most_common 10 (domains stats);
     s_smtp_status := smtp_status stats |}.

(** The block of [process_email] under [stats_lock]. *)
Definition record_event (is_spam : bool) (sender_domain : option str)
    (event : Event) (stats : Stats) : Stats :=
  {| total_emails := total_emails stats + 1;
     spam_count := if is_spam then spam_count stats + 1 else spam_count stats;
     domains := match sender_domain with
                | Some ((_ :: _) as d) => counter_incr d (domains stats)
                | _ => domains stats
                end;
     events := appendleft EVENTS_MAXLEN event (events stats);
     smtp_status := smtp_status stats |}.

(* ------------------------------------------------------------------ *)
(** ** main.py: the sender domain *)

(** [c in s] *)
Definition has_char (c : codepoint) (s : str) : bool := existsb (N.eqb c) s.

(** [s.split(sep)] for a one-character separator. *)
Fixpoint split_on (sep : codepoint) (s : str) : list str :=
  match s with
  | [] => [[]]
  | c :: s' =>
      if (c =? sep)%N then [] :: split_on sep s'
      else match split_on sep s' with
           | [] => [[c]]
           | w :: ws => (c :: w) :: ws
           end
  end.

(** [s.lstrip(chars)], [s.rstrip(chars)], [s.strip(chars)] *)
Fixpoint lstrip (chars : str) (s : str) : str :=
  match s with
  | [] => []
  | c :: s' => if has_char c chars then lstrip chars s' else s
  end.

Definition rstrip (chars : str) (s : str) : str := rev (lstrip chars (rev s)).

Definition strip (chars : str) (s : str) : str := rstrip chars (lstrip chars s).

Definition AT : codepoint := chr "@".

Section Domain.

Variable U : UnicodeDB.

(** The [try] block of [process_email]; on strings none of its calls
    raises, so the handler is never entered. *)
Definition sender_domain_of (envelope_from : str) (parsed_from : str) : option str :=
  if has_char AT envelope_from then
    Some (lower U (last (split_on AT envelope_from) []))
  else
    match parsed_from with
    | [] => None
    | _ :: _ =>
        if has_char AT parsed_from then
          Some (lower U (strip (lit " >") (last (split_on AT parsed_from) [])))
        else None
    end.

End Domain.

(* ================================================================== *)
(** ** main.py: the connection manager *)

(** A websocket, by the identity of the object. *)
Definition Conn := nat.

(** The three shapes of message the application broadcasts. *)
Inductive Message : Type :=
| EmailEventMsg (event : Event) (summary : Summary)
| StatusMsg (summary : Summary)
| InitMsg (summary : Summary).

(** The collaborators of [broadcast]: [json.dumps] and the websocket's
    [send_text], which is awaited. *)
Record Transport : Type := {
  json_dumps : Message -> str;
  send_text : Conn -> str -> awaited unit
}.

Record ConnectionManager : Type := { active : list Conn }.

(** [list.remove]: drops the first occurrence. *)
Fixpoint remove_first (x : Conn) (l : list Conn) : list Conn :=
  match l with
  | [] => []
  | y :: l' => if (x =? y)%nat then l' else y :: remove_first x l'
  end.

Definition mem_conn (x : Conn) (l : list Conn) : bool := existsb (Nat.eqb x) l.

(** [connect], once the websocket has been accepted. *)
Definition connect (self : ConnectionManager) (websocket : Conn) : ConnectionManager :=
  {| active := active self ++ [websocket] |}.

Definition disconnect (self : ConnectionManager) (websocket : Conn) : ConnectionManager :=
  if mem_conn websocket (active self)
  then {| active := remove_first websocket (active self) |}
  else self.

(** One send attempt as seen on the wire: to whom, what, and whether
    [send_text] returned. *)
Record Attempt : Type := { to_conn : Conn; payload : str; delivered : bool }.

Section Broadcast.

Variable T : Transport.

(** The first loop of [broadcast], over the copy [list(self.active)]: the
    attempts made, [to_remove], and the exception that left the loop, if
    one did.  [except Exception] catches a failed send and the loop goes on;
    any other exception ends it. *)
Fixpoint send_loop (data : str) (conns : list Conn)
  : list Attempt * list Conn * option base_exn :=
  match conns with
  | [] => ([], [], None)
  | conn :: rest =>
      match send_text T conn data with
      | Returned _ =>
          let '(log, to_remove, raised) := send_loop data rest in
          ({| to_conn := conn; payload := data; delivered := true |} :: log,
           to_remove, raised)
      | Failed _ =>
          let '(log, to_remove, raised) := send_loop data rest in
          ({| to_conn := conn; payload := data; delivered := false |} :: log,
           conn :: to_remove, raised)
      | Cancelled b =>
          ([{| to_conn := conn; payload := data; delivered := false |}], [], Some b)
      end
  end.

(** What a call of [broadcast] leaves: the manager, the attempts made and
    the exception it raised, if any. *)
Record Broadcast : Type := {
  b_manager : ConnectionManager;
  b_log : list Attempt;
  b_raised : option base_exn
}.

(** [broadcast]: the second loop runs only when the first was not left by
    an exception. *)
Definition broadcast (self : ConnectionManager) (message : Message) : Broadcast :=
  let data := json_dumps T message in
  match send_loop data (active self) with
  | (log, to_remove, None) =>
      {| b_manager := fold_left disconnect to_remove self;
         b_log := log;
         b_raised := None |}
  | (log, _, Some b) =>
      {| b_manager := self; b_log := log; b_raised := Some b |}
  end.

End Broadcast.

(* ================================================================== *)
(** ** main.py and smtp_handler.py: the pipeline *)

(** Everything a delivery reads or changes: the statistics, the
    connection manager, the number of clock readings taken, the send
    attempts made and the lines printed. *)
Record World : Type := {
  stats : Stats;
  manager : ConnectionManager;
  ticks : nat;
  wire : list Attempt;
  stdout : list string
}.

Definition initial_world : World :=
  {| stats := initial_stats;
     manager := {| active := [] |};
     ticks := 0;
     wire := [];
     stdout := [] |}.

(** The envelope that aiosmtpd hands to the handler. *)
Record Envelope : Type := {
  mail_from : str;
  rcpt_tos : list str;
  env_content : bytes
}.

Definition exn_text (e : exn) : string :=
  match e with Exn _ msg => msg end.

Section Pipeline.

Variable U : UnicodeDB.
Variable L : EmailLib.
Variable T : Transport.
Variable spam_model : SpamModel.
(** [datetime.datetime.utcnow().isoformat()] at the n-th reading. *)
Variable utcnow_isoformat : nat -> str.

(** [process_email]: the world it leaves and what awaiting it gives.  The
    parser and the classifier are called before the first change of state,
    so when one of them raises the world is as it was; the only [await]
    that can suspend is the broadcast, after the statistics were updated,
    and what the broadcast raises is not caught here. *)
Definition process_email (envelope_from : str) (rcpt_tos : list str)
    (message_bytes : bytes) (w : World) : World * awaited unit :=
  match parse_email L message_bytes with
  | Raise e => (w, Failed e)
  | Ok parsed =>
      let text_for_scoring :=
        join (lit " ") [subject parsed; body parsed; envelope_from; from_ parsed] in
      match predict U spam_model (Some text_for_scoring) with
      | Raise e => (w, Failed e)
      | Ok result =>
          let sender_domain := sender_domain_of U envelope_from (from_ parsed) in
          let event :=
            {| ev_time := utcnow_isoformat (ticks w) ++ lit "Z";
               ev_from := envelope_from;
               ev_from_header := from_ parsed;
               ev_to := rcpt_tos;
               ev_subject := subject parsed;
               ev_is_spam := is_spam result;
               ev_score := score result |} in
          let stats' := record_event (is_spam result) sender_domain event (stats w) in
          let message := EmailEventMsg event (summary_stats stats') in
          let sent := broadcast T (manager w) message in
          ({| stats := stats';
              manager := b_manager sent;
              ticks := S (ticks w);
              wire := wire w ++ b_log sent;
              stdout := stdout w |},
           match b_raised sent with
           | None => Returned tt
           | Some b => Cancelled b
           end)
      end
  end.

Definition smtp_callback := process_email.

(** [print(...)]: one more line on the standard output. *)
Definition print (line : string) (w : World) : World :=
  {| stats := stats w;
     manager := manager w;
     ticks := ticks w;
     wire := wire w;
     stdout := stdout w ++ [line] |}.

(** [ForwardingHandler.handle_DATA]: the world afterwards and what
    awaiting the handler gives, a reply for the SMTP session or the
    exception that [except Exception] did not catch. *)
Definition handle_DATA
    (callback : str -> list str -> bytes -> World -> World * awaited unit)
    (envelope : Envelope) (w : World) : World * awaited string :=
  match callback (mail_from envelope) (rcpt_tos envelope) (env_content envelope) w with
  | (w', Returned _) => (w', Returned "250 Message accepted for delivery"%string)
  | (w', Failed exc) =>
      (print ("Error processing message in handler: " ++ exn_text exc)%string w',
       Returned "250 Message accepted (processing error)"%string)
  | (w', Cancelled b) => (w', Cancelled b)
  end.

(** One delivery after another through the handler the application
    installs. *)
Definition deliver (w : World) (envelope : Envelope) : World :=
  fst (handle_DATA smtp_callback envelope w).

Definition deliver_all (envelopes : list Envelope) (w : World) : World :=
  fold_left deliver envelopes w.

End Pipeline.

(* ================================================================== *)
(** ** Reference notions the statements are compared with *)

(** [s] starts with [p]. *)
Fixpoint starts_with (p s : str) : bool :=
  match p, s with
  | [], _ => true
  | _ :: _, [] => false
  | c :: p', d :: s' => (d =? c)%N && starts_with p' s'
  end.

(** Some position of the text satisfies [m], which sees the character
    before the position and the text from it on. *)
Fixpoint somewhere (m : option codepoint -> str -> bool)
    (prev : option codepoint) (s : str) : bool :=
  m prev s ||
  match s with
  | [] => false
  | c :: s' => somewhere m (Some c) s'
  end.

(** [p] is a substring of [s]. *)
Definition contains (p s : str) : bool :=
  somewhere (fun _ t => starts_with p t) None s.

(** [p] occurs in [s] at a place where no word character follows it. *)
Definition contains_word_end (U : UnicodeDB) (p s : str) : bool :=
  somewhere
    (fun _ t => starts_with p t
                && negb (word_opt U (hd_error (skipn (List.length p) t))))
    None s.

(** A dollar sign directly followed by a decimal digit occurs in [s]. *)
Definition contains_dollar_digit (U : UnicodeDB) (s : str) : bool :=
  somewhere
    (fun _ t => match t with
                | c :: d :: _ => (c =? chr "$")%N && is_digit U d
                | _ => false
                end)
    None s.

(** What each of the thirteen patterns looks for, in the order of
    [SPAM_KEYWORDS]. *)
Definition keyword_meaning (U : UnicodeDB) : list (str -> bool) :=
  [ contains_word_end U (lit "free");
    contains (lit "buy now");
    contains (lit "limited time");
    contains (lit "winner");
    contains (lit "congratulat");
    contains (lit "claim prize");
    contains (lit "click here");
    contains (lit "urgent");
    contains (lit "act now");
    contains_word_end U (lit "cheap");
    contains_dollar_digit U;
    contains (lit "viagra");
    contains (lit "lottery") ].

Definition count_true (l : list bool) : nat := List.length (filter (fun b => b) l).

(** [float(n)] *)
Fixpoint float_of_nat (n : nat) : float :=
  match n with
  | O => 0%float
  | S k => PrimFloat.add (float_of_nat k) 1
  end.

(** [n * 0.25] *)
Definition quarters (n : nat) : float := PrimFloat.mul (float_of_nat n) 0.25.

(** What one keyword does to the running score, given whether it matched. *)
Definition add_quarter_if (sc : float) (hit : bool) : float :=
  if hit then PrimFloat.add sc 0.25 else sc.

(** The character a match ends on, for the assertion that follows it. *)
Definition end_prev (p : str) (prev : option codepoint) : option codepoint :=
  fold_left (fun _ c => Some c) p prev.

Definition is_some {A : Type} (o : option A) : bool :=
  match o with Some _ => true | None => false end.

(** The text after the last occurrence of [c], when [c] occurs. *)
Fixpoint after_last (c : codepoint) (s : str) : option str :=
  match s with
  | [] => None
  | x :: s' =>
      match after_last c s' with
      | Some t => Some t
      | None => if (x =? c)%N then Some s' else None
      end
  end.

(** What one processed delivery hands to the block under the lock. *)
Record Update : Type := {
  u_spam : bool;
  u_domain : option str;
  u_event : Event
}.

Definition apply_update (st : Stats) (u : Update) : Stats :=
  record_event (u_spam u) (u_domain u) (u_event u) st.

(** The statistics after a sequence of processed deliveries. *)
Definition record_all (us : list Update) (st : Stats) : Stats :=
  fold_left apply_update us st.

(** A sender domain that is counted: neither [None] nor empty. *)
Definition counted (d : option str) : bool :=
  match d with Some (_ :: _) => true | _ => false end.

Definition count_spam (us : list Update) : Z :=
  Z.of_nat (List.length (filter u_spam us)).

Definition count_counted (us : list Update) : Z :=
  Z.of_nat (List.length (filter (fun u => counted (u_domain u)) us)).

Definition str_mem (k : str) (l : list str) : bool := existsb (str_eqb k) l.

(** The distinct strings of a sequence, in the order of their first
    occurrence. *)
Definition first_seen (ks : list str) : list str :=
  fold_left (fun seen k => if str_mem k seen then seen else seen ++ [k]) ks [].

(** The domains that a sequence of updates counts, in order. *)
Fixpoint counted_domains (us : list Update) : list str :=
  match us with
  | [] => []
  | u :: us' =>
      match u_domain u with
      | Some ((_ :: _) as d) => d :: counted_domains us'
      | _ => counted_domains us'
      end
  end.

Definition has_count (c : Z) (x : str * Z) : bool := (snd x =? c)%Z.

(** A sample update, told apart by its time stamp [n]. *)
Definition sample_update (n : nat) : Update :=
  {| u_spam := Nat.even n;
     u_domain := if (n mod 3 =? 0)%nat then None else Some (lit "example.com");
     u_event := {| ev_time := [N.of_nat n];
                   ev_from := lit "a@example.com";
                   ev_from_header := [];
                   ev_to := [];
                   ev_subject := [];
                   ev_is_spam := Nat.even n;
                   ev_score := 0 |} |}.

Definition is_ok {A : Type} (r : result A) : bool :=
  match r with Ok _ => true | Raise _ => false end.

(** An observer whose [send_text] returns on the given data. *)
Definition reachable (T : Transport) (data : str) (c : Conn) : bool :=
  is_returned (send_text T c data).

(** No send of the given data to one of these observers raises anything
    but an instance of [Exception]. *)
Definition uncancelled (T : Transport) (data : str) (conns : list Conn) : bool :=
  forallb (fun c => negb (is_cancelled (send_text T c data))) conns.

(** A stand-in for the [email] package on the payload
    [b"Content-Type: multipart/mixed\n\nhello"]: the parser yields a
    message that is not multipart (it has no boundary, so its payload is a
    string) and has no headers of interest, and [get_content] raises
    [KeyError], because the content manager has no handler for the type. *)
Definition unhandled_type_lib : EmailLib :=
  {| EmailMessage := unit;
     parsebytes := fun _ => Ok tt;
     msg_get := fun _ _ => Ok None;
     is_multipart := fun _ => false;
     walk := fun m => [m];
     get_content_type := fun _ => lit "multipart/mixed";
     get_content := fun _ => Raise (Exn "KeyError" "multipart/mixed");
     decode_replace := map (fun b => Byte.to_N b) |}.

Definition multipart_no_boundary : bytes :=
  list_byte_of_string "Content-Type: multipart/mixed

hello".

(** A stand-in for the [email] package on a plain message with the
    single header [From: "Sale" <sale@shop.test>] and the body "hello". *)
Definition sale_header : str := 34%N :: lit "Sale" ++ 34%N :: lit " <sale@shop.test>".

Definition plain_text_lib : EmailLib :=
  {| EmailMessage := unit;
     parsebytes := fun _ => Ok tt;
     msg_get := fun _ name =>
       Ok (if str_eqb name (lit "from") then Some sale_header else None);
     is_multipart := fun _ => false;
     walk := fun m => [m];
     get_content_type := fun _ => lit "text/plain";
     get_content := fun _ => Ok (CStr (lit "hello"));
     decode_replace := map (fun b => Byte.to_N b) |}.

Definition sale_message : bytes :=
  list_byte_of_string "From: " ++ [Byte.x22] ++ list_byte_of_string "Sale"
    ++ [Byte.x22] ++ list_byte_of_string " <sale@shop.test>

hello".

(** A transport on which exactly websocket 2 is broken. *)
Definition second_broken : Transport :=
  {| json_dumps := fun _ => lit "{}";
     send_text := fun c _ =>
       if (c =? 2)%nat then Failed (Exn "RuntimeError" "websocket closed")
       else Returned tt |}.

(** A transport on which the task is cancelled while it sends to
    websocket 2. *)
Definition second_cancelled : Transport :=
  {| json_dumps := fun _ => lit "{}";
     send_text := fun c _ =>
       if (c =? 2)%nat then Cancelled (BaseExn "CancelledError" EmptyString)
       else Returned tt |}.

(** A sample envelope with no envelope sender, and a clock. *)
Definition sale_envelope : Envelope :=
  {| mail_from := []; rcpt_tos := [lit "me@home.test"]; env_content := sale_message |}.

Definition sample_clock (n : nat) : str := lit "2024-01-01T00:00:0" ++ [N.of_nat (48 + n)].

Definition three_observers : World :=
  {| stats := initial_stats;
     manager := {| active := [1; 2; 3]%nat |};
     ticks := 0;
     wire := [];
     stdout := [] |}.

(* ================================================================== *)
(** ** main.py: the listener status and the websocket endpoint *)

(** The aiosmtpd controller: starting and stopping it returns or raises. *)
Record Controller : Type := {
  controller_start : result unit;
  controller_stop : result unit
}.

(** The application: the world, and whether the global [smtp_controller]
    holds a controller. *)
Record App : Type := {
  app_world : World;
  smtp_controller : bool
}.

Definition initial_app : App :=
  {| app_world := initial_world; smtp_controller := false |}.

Definition with_status (status : SmtpStatus) (st : Stats) : Stats :=
  {| total_emails := total_emails st;
     spam_count := spam_count st;
     domains := domains st;
     events := events st;
     smtp_status := status |}.

(** The tail shared by [startup_event] and [shutdown_event]: the status
    is stored, the snapshot is broadcast, a line is printed.  What the
    broadcast raises is not caught, and then nothing is printed. *)
Definition announce (T : Transport) (status : SmtpStatus) (line : string)
    (w : World) : World * awaited unit :=
  let stats' := with_status status (stats w) in
  let sent := broadcast T (manager w) (StatusMsg (summary_stats stats')) in
  let w' := {| stats := stats';
               manager := b_manager sent;
               ticks := ticks w;
               wire := wire w ++ b_log sent;
               stdout := stdout w |} in
  match b_raised sent with
  | None => (print line w', Returned tt)
  | Some b => (w', Cancelled b)
  end.

(** [startup_event]: the state afterwards, and what awaiting it gives.
    The global is assigned before the controller is started. *)
Definition startup_event (C : Controller) (T : Transport) (app : App)
  : App * awaited unit :=
  match controller_start C with
  | Raise e => ({| app_world := app_world app; smtp_controller := true |}, Failed e)
  | Ok _ =>
      let (w', r) :=
        announce T {| listening := true; host := SMTP_HOST; port := SMTP_PORT |}
          ("SMTP controller started on " ++ SMTP_HOST ++ ":"
           ++ NilZero.string_of_int (Z.to_int SMTP_PORT))%string
          (app_world app) in
      ({| app_world := w'; smtp_controller := true |}, r)
  end.

(** [shutdown_event] *)
Definition shutdown_event (C : Controller) (T : Transport) (app : App)
  : App * awaited unit :=
  match (if smtp_controller app then controller_stop C else Ok tt) with
  | Raise e => (app, Failed e)
  | Ok _ =>
      let (w', r) :=
        announce T
          {| listening := false;
             host := host (smtp_status (stats (app_world app)));
             port := port (smtp_status (stats (app_world app))) |}
          "SMTP controller stopped"%string
          (app_world app) in
      ({| app_world := w'; smtp_controller := smtp_controller app |}, r)
  end.

(** What the endpoint awaits on its websocket besides [send_text]:
    [accept], and [receive_text] at its n-th call. *)
Record Socket : Type := {
  accept : Conn -> awaited unit;
  receive_text : Conn -> nat -> awaited str
}.

(** How the loop [while True: await websocket.receive_text()] is left. *)
Inductive loop_exit : Type :=
| ExitFailed (e : exn)
| ExitCancelled (b : base_exn).

(** The loop from the n-th call on: what the first call that raises
    raised, if one does within [fuel] calls. *)
Fixpoint receive_loop (S : Socket) (ws : Conn) (fuel n : nat) : option loop_exit :=
  match fuel with
  | O => None
  | Datatypes.S fuel' =>
      match receive_text S ws n with
      | Returned _ => receive_loop S ws fuel' (Datatypes.S n)
      | Failed e => Some (ExitFailed e)
      | Cancelled b => Some (ExitCancelled b)
      end
  end.

(** The world once the websocket is registered and the initial snapshot
    has been sent to it, successfully or not. *)
Definition session_open (T : Transport) (ws : Conn) (w : World) : World :=
  let data := json_dumps T (InitMsg (summary_stats (stats w))) in
  {| stats := stats w;
     manager := connect (manager w) ws;
     ticks := ticks w;
     wire := wire w ++ [{| to_conn := ws; payload := data;
                           delivered := is_returned (send_text T ws data) |}];
     stdout := stdout w |}.

(** The two handlers of the endpoint, for [WebSocketDisconnect] and for
    [Exception]: both call [manager.disconnect]. *)
Definition session_close (ws : Conn) (w : World) : World :=
  {| stats := stats w;
     manager := disconnect (manager w) ws;
     ticks := ticks w;
     wire := wire w;
     stdout := stdout w |}.

(** [websocket_endpoint]: [None] while the client is still being read
    after [fuel] messages; otherwise the world when the endpoint is left and
    what awaiting it gives.  [accept] is awaited outside the [try]; inside
    it an instance of [Exception] leads to [disconnect] and a normal return,
    and any other exception leaves the endpoint with the websocket still
    registered. *)
Definition websocket_endpoint (S : Socket) (T : Transport) (ws : Conn)
    (fuel : nat) (w : World) : option (World * awaited unit) :=
  match accept S ws with
  | Failed e => Some (w, Failed e)
  | Cancelled b => Some (w, Cancelled b)
  | Returned _ =>
      let w1 := session_open T ws w in
      match send_text T ws (json_dumps T (InitMsg (summary_stats (stats w)))) with
      | Failed _ => Some (session_close ws w1, Returned tt)
      | Cancelled b => Some (w1, Cancelled b)
      | Returned _ =>
          match receive_loop S ws fuel 0 with
          | None => None
          | Some (ExitFailed _) => Some (session_close ws w1, Returned tt)
          | Some (ExitCancelled b) => Some (w1, Cancelled b)
          end
      end
  end.

(* ================================================================== *)
(** ** Further reference notions *)

(** The text that [announce] sends: the snapshot with the new status. *)
Definition status_data (T : Transport) (status : SmtpStatus) (w : World) : str :=
  json_dumps T (StatusMsg (summary_stats (with_status status (stats w)))).

(** The final score as decided by the number of patterns that matched,
    the presence of "!!" and the number of URLs. *)
Definition score_of (n : nat) (excl : bool) (urls : nat) : float :=
  let s := quarters n in
  let s := if excl then PrimFloat.add s 0.15 else s in
  let s := if (2 <=? urls)%nat then PrimFloat.add s 0.2
           else if (urls =? 1)%nat then PrimFloat.add s 0.08
           else s in
  py_min s 1.

(** The number of patterns of [SPAM_KEYWORDS] found in the text. *)
Definition keyword_hits (U : UnicodeDB) (text : str) : nat :=
  count_true (map (fun kw => re_search U kw (lower U text)) SPAM_KEYWORDS).

(** The character at index [n] exists and is not white space. *)
Definition nonspace_at (U : UnicodeDB) (n : nat) (t : str) : bool :=
  match nth_error t n with
  | Some c => negb (is_space U c)
  | None => false
  end.

(** The text starts with "http://" or "https://" and a character that is
    not white space follows. *)
Definition url_at (U : UnicodeDB) (t : str) : bool :=
  (starts_with (lit "http://") t && nonspace_at U 7 t)
  || (starts_with (lit "https://") t && nonspace_at U 8 t).

Definition nonempty {A : Type} (l : list A) : bool :=
  match l with [] => false | _ :: _ => true end.

(** A counter as the pipeline keeps it: distinct keys, none of them the
    empty string, every count at least 1. *)
Definition counter_ok (d : Counter) : Prop :=
  NoDup (map fst d) /\ Forall (fun kc => fst kc <> [] /\ (1 <= snd kc)%Z) d.

(** The number of updates that count the domain [d]. *)
Definition count_domain (d : str) (us : list Update) : Z :=
  Z.of_nat (List.length
    (filter (fun u => match u_domain u with
                      | Some k => str_eqb k d
                      | None => false
                      end) us)).

(** The number of spam events in a history. *)
Definition spam_events (l : list Event) : Z :=
  Z.of_nat (List.length (filter ev_is_spam l)).

(** An update whose event carries the verdict that is counted. *)
Definition coherent (u : Update) : Prop := ev_is_spam (u_event u) = u_spam u.

(** The event that [process_email] builds. *)
Definition event_of (clock : nat -> str) (envelope_from : str) (rcpts : list str)
    (parsed : ParsedMessage) (verdict : Verdict) (w : World) : Event :=
  {| ev_time := clock (ticks w) ++ lit "Z";
     ev_from := envelope_from;
     ev_from_header := from_ parsed;
     ev_to := rcpts;
     ev_subject := subject parsed;
     ev_is_spam := is_spam verdict;
     ev_score := score verdict |}.

(** The message that [process_email] broadcasts: the event with the
    snapshot taken once the event is recorded. *)
Definition event_message (U : UnicodeDB) (clock : nat -> str) (envelope_from : str)
    (rcpts : list str) (parsed : ParsedMessage) (verdict : Verdict) (w : World)
  : Message :=
  EmailEventMsg (event_of clock envelope_from rcpts parsed verdict w)
    (summary_stats
       (record_event (is_spam verdict)
          (sender_domain_of U envelope_from (from_ parsed))
          (event_of clock envelope_from rcpts parsed verdict w) (stats w))).

(** The text that [process_email] hands to the classifier. *)
Definition text_for_scoring (envelope_from : str) (parsed : ParsedMessage) : str :=
  join (lit " ") [subject parsed; body parsed; envelope_from; from_ parsed].

(** A stand-in for the [email] package on a multipart message (0) with a
    text/plain part "a" (1), an HTML part whose content cannot be extracted
    (2) and a text/plain part "b" (3). *)
Definition two_part_lib : EmailLib :=
  {| EmailMessage := nat;
     parsebytes := fun _ => Ok 0%nat;
     msg_get := fun _ _ => Ok None;
     is_multipart := fun m => (m =? 0)%nat;
     walk := fun m => if (m =? 0)%nat then [0; 1; 2; 3]%nat else [m];
     get_content_type := fun m =>
       if (m =? 0)%nat then lit "multipart/mixed"
       else if (m =? 2)%nat then lit "text/html"
       else lit "text/plain";
     get_content := fun m =>
       if (m =? 1)%nat then Ok (CStr (lit "a"))
       else if (m =? 3)%nat then Ok (CStr (lit "b"))
       else Raise (Exn "LookupError" "unknown encoding");
     decode_replace := map (fun b => Byte.to_N b) |}.

(** A controller that starts and stops, and a client that sends two
    messages and then disconnects. *)
Definition good_controller : Controller :=
  {| controller_start := Ok tt; controller_stop := Ok tt |}.

Definition two_messages : Socket :=
  {| accept := fun _ => Returned tt;
     receive_text := fun _ n =>
       if (n <? 2)%nat then Returned (lit "ping")
       else Failed (Exn "WebSocketDisconnect" "1000") |}.

(** A client during whose second message the task is cancelled. *)
Definition cancelled_reader : Socket :=
  {| accept := fun _ => Returned tt;
     receive_text := fun _ n =>
       if (n <? 1)%nat then Returned (lit "ping")
       else Cancelled (BaseExn "CancelledError" EmptyString) |}.

(* ================================================================== *)
(** * Properties of the rule-based detector *)

Section RegexFacts.

Variable U : UnicodeDB.

Lemma match_rep_done (k : option codepoint -> str -> option str) a prev s :
  match_rep U k a 0 (Some 0%nat) prev s = k prev s.
Proof. destruct s; reflexivity. Qed.

(** A single literal character consumes exactly that character. *)
Lemma match_rep_one (k : option codepoint -> str -> option str) c prev s :
  match_rep U k (Chr c) 1 (Some 1%nat) prev s =
  match s with
  | d :: s' => if (d =? c)%N then k (Some c) s' else None
  | [] => None
  end.
Proof.
  destruct s as [|d s']; [reflexivity|].
  cbn [match_rep cls_match pred option_map].
  destruct (N.eqb_spec d c) as [->|_]; [|reflexivity].
  rewrite match_rep_done. now destruct (k (Some c) s').
Qed.

(** A run of literal characters matches exactly where the text starts
    with them; the rest of the pattern goes on behind them. *)
Lemma match_at_literal (p : str) (r : regex) prev s :
  match_at U (map (fun c => one (Chr c)) p ++ r) prev s =
  if starts_with p s
  then match_at U r (end_prev p prev) (skipn (List.length p) s)
  else None.
Proof.
  revert prev s. induction p as [|c p IH]; intros prev s.
  - reflexivity.
  - cbn [map app match_at one]. fold (one (Chr c)). unfold one.
    rewrite match_rep_one. destruct s as [|d s']; [reflexivity|].
    cbn [starts_with List.length skipn end_prev fold_left].
    destruct (d =? c)%N; [|reflexivity].
    cbn [andb]. apply IH.
Qed.

Lemma match_at_lits (p : string) prev s :
  is_some (match_at U (lits p) prev s) = starts_with (lit p) s.
Proof.
  unfold lits. rewrite <- (app_nil_r (map _ (lit p))), match_at_literal.
  now destruct (starts_with (lit p) s).
Qed.

Lemma search_from_somewhere r prev s :
  search_from U r prev s = somewhere (fun q t => is_some (match_at U r q t)) prev s.
Proof.
  revert prev. induction s as [|c s IH]; intros prev; cbn [search_from somewhere].
  - destruct (match_at U r prev []); reflexivity.
  - destruct (match_at U r prev (c :: s)); [reflexivity|]. apply IH.
Qed.

Lemma somewhere_ext (m m' : option codepoint -> str -> bool) :
  (forall q t, m q t = m' q t) ->
  forall prev s, somewhere m prev s = somewhere m' prev s.
Proof.
  intros E prev s. revert prev.
  induction s as [|c s IH]; intros prev; cbn [somewhere]; rewrite E; [reflexivity|].
  now rewrite IH.
Qed.

(** A pattern of literal characters is a substring test. *)
Lemma re_search_lits (p : string) s :
  re_search U (lits p) s = contains (lit p) s.
Proof.
  unfold re_search, contains. rewrite search_from_somewhere.
  apply somewhere_ext. intros q t. apply match_at_lits.
Qed.

(** A word followed by [\b]: the word must end where no word character
    follows. *)
Lemma re_search_word (p : string) s :
  word_opt U (end_prev (lit p) None) = true ->
  lit p <> [] ->
  re_search U (lits p ++ [Boundary]) s = contains_word_end U (lit p) s.
Proof.
  intros Hw Hne. unfold re_search, contains_word_end.
  rewrite search_from_somewhere. apply somewhere_ext. intros q t.
  unfold lits. rewrite match_at_literal.
  destruct (starts_with (lit p) t); [|reflexivity].
  cbn [match_at andb].
  assert (Hq : end_prev (lit p) q = end_prev (lit p) None).
  { destruct (lit p) as [|c l]; [contradiction|]. reflexivity. }
  rewrite Hq. unfold at_boundary. rewrite Hw.
  now destruct (word_opt U (hd_error (skipn (List.length (lit p)) t))).
Qed.

(** Once its lower bound is met, a repetition before the end of the
    pattern always succeeds. *)
Lemma match_rep_open a hi prev s :
  is_some (match_rep U (match_at U []) a 0 hi prev s) = true.
Proof.
  revert hi prev. induction s as [|c s IH]; intros hi prev.
  - destruct hi as [[|n]|]; reflexivity.
  - destruct hi as [[|n]|]; [reflexivity| |];
      cbn [match_rep pred option_map];
      (destruct (cls_match U a c); [|reflexivity]);
      match goal with
      | |- context [match_rep U ?k a 0 ?h ?q s] =>
          specialize (IH h q); destruct (match_rep U k a 0 h q s);
          [reflexivity|discriminate IH]
      end.
Qed.

(** The dollar pattern: a dollar sign, then at least one digit. *)
Lemma re_search_dollar s :
  re_search U [one (Chr (chr "$")); plus Digit] s = contains_dollar_digit U s.
Proof.
  unfold re_search, contains_dollar_digit.
  rewrite search_from_somewhere. apply somewhere_ext. intros q t.
  cbn [match_at one plus]. rewrite match_rep_one.
  destruct t as [|c t]; [reflexivity|].
  destruct (c =? chr "$")%N; [|now destruct t].
  destruct t as [|d t]; [reflexivity|].
  cbn [match_rep cls_match pred option_map andb].
  destruct (is_digit U d); [|reflexivity].
  pose proof (match_rep_open Digit None (Some d) t) as H.
  cbn [match_at] in H.
  now destruct (match_rep U _ Digit 0 None (Some d) t).
Qed.

End RegexFacts.

Section ScorerFacts.

Variable U : UnicodeDB.

(** Each pattern of [SPAM_KEYWORDS] decides what [keyword_meaning] says. *)
Lemma keyword_hits_meaning (t : str) :
  map (fun kw => re_search U kw t) SPAM_KEYWORDS =
  map (fun m => m t) (keyword_meaning U).
Proof.
  unfold SPAM_KEYWORDS, keyword_meaning. cbn [map].
  rewrite !re_search_lits, re_search_dollar.
  rewrite (@re_search_word U "free") by (reflexivity || discriminate).
  rewrite (@re_search_word U "cheap") by (reflexivity || discriminate).
  reflexivity.
Qed.

Lemma kw_fold (t : str) (kws : list regex) (acc : float) :
  fold_left (kw_step U t) kws acc =
  fold_left add_quarter_if (map (fun kw => re_search U kw t) kws) acc.
Proof.
  revert acc. induction kws as [|kw kws IH]; intros acc; [reflexivity|].
  cbn [fold_left map]. apply IH.
Qed.

End ScorerFacts.

(** Adding 0.25 is exact all the way up to thirteen quarters. *)
Lemma quarters_step (k : nat) :
  (k < 13)%nat -> PrimFloat.add (quarters k) 0.25 = quarters (S k).
Proof.
  intros H. do 13 (destruct k as [|k]; [reflexivity|]). lia.
Qed.

Lemma fold_quarters (l : list bool) (k : nat) :
  (k + List.length l <= 13)%nat ->
  fold_left add_quarter_if l (quarters k) = quarters (k + count_true l).
Proof.
  revert k. induction l as [|h l IH]; intros k Hk.
  - cbn. now rewrite Nat.add_0_r.
  - cbn [fold_left List.length] in *. destruct h; cbn [add_quarter_if].
    + rewrite quarters_step by lia. rewrite IH by lia.
      unfold count_true. cbn [filter List.length]. f_equal. lia.
    + rewrite IH by lia. reflexivity.
Qed.

Lemma keyword_score_quarters (U : UnicodeDB) (text : str) :
  keyword_score U text =
  quarters (count_true (map (fun m => m (lower U text)) (keyword_meaning U))).
Proof.
  unfold keyword_score. rewrite kw_fold, keyword_hits_meaning.
  change 0%float with (quarters 0).
  rewrite fold_quarters; [reflexivity|].
  rewrite length_map. cbn. lia.
Qed.

(** C2, as the code has it: the scorer searches the lower-cased text for
    each of the thirteen patterns.  Ten of them are plain substring tests;
    [free] and [cheap] match only where no word character follows the word;
    the dollar pattern needs a decimal digit right after the dollar sign.
    The score the keyword loop ends with is exactly 0.25 times the number of
    patterns that matched, each counted once, and it is the final score
    (up to the cap at 1.0) when the text has neither a double exclamation
    mark nor a URL. *)
Theorem keyword_scoring (U : UnicodeDB) (text : str) :
  map (fun kw => re_search U kw (lower U text)) SPAM_KEYWORDS =
    map (fun m => m (lower U text)) (keyword_meaning U)
  /\ keyword_score U text =
       quarters (count_true (map (fun kw => re_search U kw (lower U text)) SPAM_KEYWORDS))
  /\ (re_search U EXCLAMATION_RE text = false ->
      re_findall U URL_RE text = [] ->
      score (rule_based_detection U text) =
        py_min (quarters (count_true
                  (map (fun kw => re_search U kw (lower U text)) SPAM_KEYWORDS))) 1).
Proof.
  pose proof (keyword_score_quarters U text) as Hq.
  rewrite <- keyword_hits_meaning in Hq.
  split; [apply keyword_hits_meaning|]. split; [exact Hq|].
  intros He Hu. unfold rule_based_detection. rewrite He, Hu, Hq. reflexivity.
Qed.

(** C2 as stated fails: "free" is a substring of the lower-cased text
    "freedom", yet the pattern [free\b] does not match it and the score
    stays 0. *)
Lemma keyword_substring_counterexample :
  contains (lit "free") (lower plain_db (lit "freedom")) = true
  /\ re_search plain_db (lits "free" ++ [Boundary]) (lower plain_db (lit "freedom")) = false
  /\ rule_based_detection plain_db (lit "freedom") = {| is_spam := false; score := 0 |}.
Proof. repeat split; reflexivity. Qed.

(** C3, as the code has it: on "FREE!! http://a http://b" the keyword
    loop gives 0.25, the double exclamation mark and the two URLs are found,
    and the binary64 sum 0.25 + 0.15 + 0.2 is 0.6000000000000001, the float
    next above 0.6; the verdict is spam. *)
Theorem free_example_score (U : UnicodeDB) :
  let text := lit "FREE!! http://a http://b" in
  keyword_score U text = 0.25%float
  /\ re_search U EXCLAMATION_RE text = true
  /\ List.length (re_findall U URL_RE text) = 2%nat
  /\ score (rule_based_detection U text) = 0x1.3333333333334p-1%float
  /\ score (rule_based_detection U text) = PrimFloat.next_up 0.6
  /\ is_spam (rule_based_detection U text) = true.
Proof. repeat split; reflexivity. Qed.

(** C3 as stated fails: the score returned is not the float 0.6. *)
Lemma free_example_not_0_60 :
  score (rule_based_detection plain_db (lit "FREE!! http://a http://b")) <> 0.6%float.
Proof.
  intros H.
  assert (E : PrimFloat.eqb
                (score (rule_based_detection plain_db (lit "FREE!! http://a http://b")))
                0.6 = PrimFloat.eqb 0.6 0.6) by (rewrite H; reflexivity).
  vm_compute in E. discriminate E.
Qed.

(** C10: with no trained pipeline, [predict] on [None] and on the empty
    string both score the empty text, and return not-spam with score 0.0. *)
Theorem predict_empty_text (U : UnicodeDB) :
  predict U {| pipeline := None |} None = Ok {| is_spam := false; score := 0 |}
  /\ predict U {| pipeline := None |} (Some []) = Ok {| is_spam := false; score := 0 |}.
Proof. split; reflexivity. Qed.

(* ================================================================== *)
(** * Properties of [parse_email] *)

Lemma bind_returns {A B : Type} (m : result A) (k : A -> result B) :
  returns (bind m k) <-> exists a, m = Ok a /\ returns (k a).
Proof.
  split.
  - destruct m as [a|e]; cbn; intros [b Hb]; [|discriminate].
    exists a. split; [reflexivity|]. now exists b.
  - intros [a [-> H]]. exact H.
Qed.

Lemma bind_raise {A B : Type} (m : result A) (k : A -> result B) (e : exn) :
  m = Raise e -> bind m k = Raise e.
Proof. now intros ->. Qed.

Lemma raise_not_returns {A : Type} (e : exn) : ~ returns (@Raise A e).
Proof. intros [a H]. discriminate H. Qed.

(** C1, as the code has it: [parse_email] has no handler of its own.  It
    returns exactly when the parser, the three header look-ups and the body
    extraction all return, and then an absent header gives the empty string;
    an exception raised by any of these calls is what [parse_email] raises. *)
Theorem parse_email_outcome (L : EmailLib) (msg_bytes : bytes) :
  (returns (parse_email L msg_bytes) <->
     exists msg,
       parsebytes L msg_bytes = Ok msg
       /\ returns (msg_get L msg (lit "subject"))
       /\ returns (msg_get L msg (lit "from"))
       /\ returns (msg_get L msg (lit "to"))
       /\ returns (body_of L msg))
  /\ (forall msg s f t c,
        parsebytes L msg_bytes = Ok msg ->
        msg_get L msg (lit "subject") = Ok s ->
        msg_get L msg (lit "from") = Ok f ->
        msg_get L msg (lit "to") = Ok t ->
        body_of L msg = Ok c ->
        parse_email L msg_bytes =
          Ok {| subject := match s with Some v => v | None => [] end;
                from_ := match f with Some v => v | None => [] end;
                to_ := match t with Some v => v | None => [] end;
                body := py_str c;
                raw := decode_replace L msg_bytes |})
  /\ (forall e, parsebytes L msg_bytes = Raise e -> parse_email L msg_bytes = Raise e)
  /\ (forall msg e,
        parsebytes L msg_bytes = Ok msg ->
        msg_get L msg (lit "subject") = Raise e
        \/ (returns (msg_get L msg (lit "subject"))
            /\ msg_get L msg (lit "from") = Raise e)
        \/ (returns (msg_get L msg (lit "subject"))
            /\ returns (msg_get L msg (lit "from"))
            /\ msg_get L msg (lit "to") = Raise e)
        \/ (returns (msg_get L msg (lit "subject"))
            /\ returns (msg_get L msg (lit "from"))
            /\ returns (msg_get L msg (lit "to"))
            /\ body_of L msg = Raise e) ->
        parse_email L msg_bytes = Raise e)
  /\ (forall msg e,
        is_multipart L msg = false -> get_content L msg = Raise e ->
        body_of L msg = Raise e).
Proof.
  unfold parse_email. repeat split.
  - intros H.
    apply bind_returns in H as (msg & Hm & H). exists msg. split; [exact Hm|].
    apply bind_returns in H as (s & Hs & H).
    apply bind_returns in H as (f & Hf & H).
    apply bind_returns in H as (t & Ht & H).
    apply bind_returns in H as (c & Hc & _).
    repeat split; eexists; eassumption.
  - intros (msg & Hm & [s Hs] & [f Hf] & [t Ht] & [c Hc]).
    rewrite Hm; cbn [bind]. rewrite Hs; cbn [bind]. rewrite Hf; cbn [bind].
    rewrite Ht; cbn [bind]. rewrite Hc; cbn [bind]. eexists. reflexivity.
  - intros msg s f t c Hm Hs Hf Ht Hc.
    rewrite Hm; cbn [bind]. rewrite Hs; cbn [bind]. rewrite Hf; cbn [bind].
    rewrite Ht; cbn [bind]. rewrite Hc; cbn [bind].
    now destruct s, f, t.
  - intros e ->. reflexivity.
  - intros msg e Hm H. rewrite Hm; cbn [bind].
    destruct H as [H | [([s Hs] & H) | [([s Hs] & [f Hf] & H) |
                                        ([s Hs] & [f Hf] & [t Ht] & H)]]];
      repeat (match goal with
              | E : ?m = Ok _ |- context [bind ?m _] => rewrite E; cbn [bind]
              end);
      now rewrite H.
  - intros msg e Hmp Hc. unfold body_of. now rewrite Hmp.
Qed.

(** C1 as stated fails: on a payload that declares a multipart type
    without a boundary the content manager raises, and so does
    [parse_email]. *)
Lemma parse_email_raises :
  parse_email unhandled_type_lib multipart_no_boundary
    = Raise (Exn "KeyError" "multipart/mixed")
  /\ ~ returns (parse_email unhandled_type_lib multipart_no_boundary).
Proof. split; [reflexivity|]. apply raise_not_returns. Qed.

(* ================================================================== *)
(** * Properties of the sender domain *)

Lemma has_char_after_last (c : codepoint) (s : str) :
  has_char c s = is_some (after_last c s).
Proof.
  induction s as [|x s IH]; [reflexivity|].
  cbn [has_char existsb after_last]. fold (has_char c s). rewrite IH.
  destruct (after_last c s); cbn [is_some].
  - apply orb_true_r.
  - rewrite orb_false_r, N.eqb_sym. now destruct (x =? c)%N.
Qed.

Lemma after_last_none (c : codepoint) (s : str) :
  has_char c s = false -> after_last c s = None.
Proof.
  rewrite has_char_after_last. now destruct (after_last c s).
Qed.

(** [after_last] does cut at the last occurrence. *)
Lemma after_last_app (c : codepoint) (pre t : str) :
  has_char c t = false -> after_last c (pre ++ c :: t) = Some t.
Proof.
  intros H. induction pre as [|x pre IH].
  - cbn. rewrite (after_last_none _ _ H), N.eqb_refl. reflexivity.
  - cbn [app after_last]. now rewrite IH.
Qed.

Lemma split_on_none (c : codepoint) (s : str) :
  after_last c s = None -> split_on c s = [s].
Proof.
  induction s as [|x s IH]; [reflexivity|].
  cbn [after_last split_on].
  destruct (after_last c s); [discriminate|].
  destruct (x =? c)%N; [discriminate|].
  intros _. now rewrite IH.
Qed.

Lemma split_on_some (c : codepoint) (s t : str) :
  after_last c s = Some t ->
  exists w ws, split_on c s = (w :: ws) ++ [t].
Proof.
  revert t. induction s as [|x s IH]; intros t; [discriminate|].
  cbn [after_last split_on].
  destruct (after_last c s) as [t'|] eqn:E.
  - intros [= <-]. destruct (IH t' eq_refl) as (w & ws & ->).
    destruct (x =? c)%N.
    + now exists [], (w :: ws).
    + now exists (x :: w), ws.
  - destruct (x =? c)%N; [|discriminate].
    intros [= <-]. rewrite (split_on_none _ _ E). now exists [], [].
Qed.

(** [s.split(c)[-1]] is the text after the last [c], or all of [s]. *)
Lemma split_on_last (c : codepoint) (s : str) :
  last (split_on c s) [] =
  match after_last c s with Some t => t | None => s end.
Proof.
  destruct (after_last c s) as [t|] eqn:E.
  - destruct (split_on_some _ _ E) as (w & ws & ->). apply last_last.
  - now rewrite (split_on_none _ _ E).
Qed.

Lemma sender_domain_of_spec (U : UnicodeDB) (envelope_from parsed_from : str) :
  sender_domain_of U envelope_from parsed_from =
  match after_last AT envelope_from with
  | Some d => Some (lower U d)
  | None =>
      match parsed_from, after_last AT parsed_from with
      | _ :: _, Some d => Some (lower U (strip (lit " >") d))
      | _, _ => None
      end
  end.
Proof.
  unfold sender_domain_of.
  rewrite !has_char_after_last, !split_on_last.
  destruct (after_last AT envelope_from); cbn [is_some]; [reflexivity|].
  destruct parsed_from as [|x p]; [reflexivity|].
  now destruct (after_last AT (x :: p)).
Qed.

(* ================================================================== *)
(** * Properties of the statistics *)

(** ** The bounded history *)

Lemma appendleft_firstn {A : Type} (n : nat) (x : A) (q : list A) :
  (List.length q <= S n)%nat -> appendleft (S n) x q = firstn (S n) (x :: q).
Proof.
  intros Hq. unfold appendleft. cbn [firstn].
  destruct (Nat.ltb_spec (List.length q) (S n)) as [Hlt|Hge]; f_equal.
  - symmetry. apply firstn_all2. lia.
  - rewrite removelast_firstn_len. f_equal. lia.
Qed.

Lemma firstn_app_firstn {A : Type} (n : nat) (a b : list A) :
  firstn n (a ++ firstn n b) = firstn n (a ++ b).
Proof.
  rewrite !firstn_app, firstn_firstn. do 2 f_equal. lia.
Qed.

Lemma events_apply_update (st : Stats) (u : Update) :
  (List.length (events st) <= EVENTS_MAXLEN)%nat ->
  events (apply_update st u) = firstn EVENTS_MAXLEN (u_event u :: events st).
Proof.
  intros H. unfold apply_update, record_event. cbn [events].
  exact (appendleft_firstn (n := 199) _ _ H).
Qed.

(** The history is the newest-first list of all events, cut at 200. *)
Lemma events_record_all (us : list Update) (st : Stats) :
  (List.length (events st) <= EVENTS_MAXLEN)%nat ->
  events (record_all us st) =
  firstn EVENTS_MAXLEN (rev (map u_event us) ++ events st).
Proof.
  revert st. induction us as [|u us IH]; intros st Hst.
  - cbn [record_all fold_left map rev app]. symmetry. now apply firstn_all2.
  - change (record_all (u :: us) st) with (record_all us (apply_update st u)).
    rewrite IH.
    + rewrite events_apply_update by exact Hst.
      rewrite firstn_app_firstn. cbn [map rev]. now rewrite <- app_assoc.
    + rewrite events_apply_update by exact Hst. apply firstn_le_length.
Qed.

Lemma events_from_initial (us : list Update) :
  events (record_all us initial_stats) = firstn EVENTS_MAXLEN (rev (map u_event us)).
Proof.
  rewrite events_record_all by (cbn; lia). cbn [initial_stats events].
  now rewrite app_nil_r.
Qed.

(** ** The counters *)

Lemma counter_total_incr (k : str) (d : Counter) :
  counter_total (counter_incr k d) = (counter_total d + 1)%Z.
Proof.
  induction d as [|[k' c] d IH]; [reflexivity|].
  cbn [counter_incr]. destruct (str_eqb k k'); cbn [counter_total fold_right snd] in *.
  - lia.
  - fold (counter_total (counter_incr k d)). fold (counter_total d). lia.
Qed.

Lemma totals_apply_update (st : Stats) (u : Update) :
  total_emails (apply_update st u) = (total_emails st + 1)%Z
  /\ spam_count (apply_update st u) =
       (spam_count st + if u_spam u then 1 else 0)%Z
  /\ counter_total (domains (apply_update st u)) =
       (counter_total (domains st) + if counted (u_domain u) then 1 else 0)%Z.
Proof.
  unfold apply_update, record_event. cbn [total_emails spam_count domains].
  repeat split.
  - destruct (u_spam u); lia.
  - destruct (u_domain u) as [[|c d]|]; cbn [counted]; try lia.
    apply counter_total_incr.
Qed.

Lemma totals_record_all (us : list Update) (st : Stats) :
  total_emails (record_all us st) = (total_emails st + Z.of_nat (List.length us))%Z
  /\ spam_count (record_all us st) = (spam_count st + count_spam us)%Z
  /\ counter_total (domains (record_all us st)) =
       (counter_total (domains st) + count_counted us)%Z.
Proof.
  revert st. induction us as [|u us IH]; intros st.
  - unfold count_spam, count_counted. cbn. lia.
  - change (record_all (u :: us) st) with (record_all us (apply_update st u)).
    destruct (IH (apply_update st u)) as (Ht & Hs & Hd).
    destruct (totals_apply_update st u) as (Ht' & Hs' & Hd').
    rewrite Ht, Hs, Hd, Ht', Hs', Hd'.
    unfold count_spam, count_counted. cbn [filter List.length].
    destruct (u_spam u), (counted (u_domain u)); cbn [List.length]; lia.
Qed.

Lemma filter_length_le {A : Type} (f : A -> bool) (l : list A) :
  (List.length (filter f l) <= List.length l)%nat.
Proof.
  induction l as [|x l IH]; cbn; [lia|]. destruct (f x); cbn; lia.
Qed.

Lemma filter_length_lt {A : Type} (f : A -> bool) (l1 l2 : list A) (x : A) :
  f x = false ->
  (List.length (filter f (l1 ++ x :: l2)) < List.length (l1 ++ x :: l2))%nat.
Proof.
  intros Hx. rewrite filter_app, !length_app. cbn [filter List.length]. rewrite Hx.
  pose proof (filter_length_le f l1). pose proof (filter_length_le f l2). lia.
Qed.

Lemma record_all_app (us1 us2 : list Update) (st : Stats) :
  record_all (us1 ++ us2) st = record_all us2 (record_all us1 st).
Proof. apply fold_left_app. Qed.

Lemma firstn_exact {A : Type} (n : nat) (a b : list A) :
  List.length a = n -> firstn n (a ++ b) = a.
Proof.
  intros <-. rewrite firstn_app, Nat.sub_diag, firstn_all. cbn. apply app_nil_r.
Qed.

(** An event is not in a list when no event there carries its time. *)
Lemma not_in_by_time (e : Event) (l : list Event) :
  existsb (str_eqb (ev_time e)) (map ev_time l) = false -> ~ In e l.
Proof.
  intros H Hin. apply (in_map ev_time) in Hin.
  assert (existsb (str_eqb (ev_time e)) (map ev_time l) = true) as H'.
  { apply existsb_exists. exists (ev_time e). split; [exact Hin|].
    unfold str_eqb. now destruct (list_eq_dec N.eq_dec (ev_time e) (ev_time e)). }
  rewrite H in H'. discriminate H'.
Qed.

(* ================================================================== *)
(** * Properties of the pipeline *)

Section PipelineFacts.

Variable U : UnicodeDB.
Variable L : EmailLib.
Variable T : Transport.
Variable spam_model : SpamModel.
Variable utcnow_isoformat : nat -> str.

Local Abbreviation process := (process_email U L T spam_model utcnow_isoformat).
Local Abbreviation deliveries := (deliver_all U L T spam_model utcnow_isoformat).

(** The two ways through [process_email]: the parser or the classifier
    raises and nothing has changed, or the statistics are updated and the
    event is broadcast. *)
Lemma process_email_cases (envelope_from : str) (rcpts : list str)
    (message_bytes : bytes) (w : World) :
  (exists e,
     process envelope_from rcpts message_bytes w = (w, Failed e)
     /\ (parse_email L message_bytes = Raise e
         \/ exists parsed,
              parse_email L message_bytes = Ok parsed
              /\ predict U spam_model (Some (text_for_scoring envelope_from parsed))
                 = Raise e))
  \/ (exists parsed verdict,
        parse_email L message_bytes = Ok parsed
        /\ predict U spam_model (Some (text_for_scoring envelope_from parsed)) = Ok verdict
        /\ process envelope_from rcpts message_bytes w =
           ({| stats :=
                 record_event (is_spam verdict)
                   (sender_domain_of U envelope_from (from_ parsed))
                   (event_of utcnow_isoformat envelope_from rcpts parsed verdict w)
                   (stats w);
               manager :=
                 b_manager
                   (broadcast T (manager w)
                      (EmailEventMsg
                         (event_of utcnow_isoformat envelope_from rcpts parsed verdict w)
                         (summary_stats
                            (record_event (is_spam verdict)
                               (sender_domain_of U envelope_from (from_ parsed))
                               (event_of utcnow_isoformat envelope_from rcpts parsed
                                  verdict w)
                               (stats w)))));
               ticks := Datatypes.S (ticks w);
               wire :=
                 wire w
                 ++ b_log
                      (broadcast T (manager w)
                         (EmailEventMsg
                            (event_of utcnow_isoformat envelope_from rcpts parsed verdict w)
                            (summary_stats
                               (record_event (is_spam verdict)
                                  (sender_domain_of U envelope_from (from_ parsed))
                                  (event_of utcnow_isoformat envelope_from rcpts parsed
                                     verdict w)
                                  (stats w)))));
               stdout := stdout w |},
            match
              b_raised
                (broadcast T (manager w)
                   (EmailEventMsg
                      (event_of utcnow_isoformat envelope_from rcpts parsed verdict w)
                      (summary_stats
                         (record_event (is_spam verdict)
                            (sender_domain_of U envelope_from (from_ parsed))
                            (event_of utcnow_isoformat envelope_from rcpts parsed
                               verdict w)
                            (stats w)))))
            with
            | None => Returned tt
            | Some b => Cancelled b
            end)).
Proof.
  unfold process_email, text_for_scoring.
  destruct (parse_email L message_bytes) as [parsed|e] eqn:Hparse.
  - destruct (predict U spam_model _) as [verdict|e] eqn:Hpredict.
    + right. exists parsed, verdict. repeat split. exact Hpredict.
    + left. exists e. split; [reflexivity|]. right. exists parsed. now split.
  - left. exists e. split; [reflexivity|]. now left.
Qed.

(** What a delivery has done when [process_email] did not raise an
    instance of [Exception]: it returned, or its broadcast was cancelled. *)
Lemma process_email_done (envelope_from : str) (rcpts : list str)
    (message_bytes : bytes) (w w' : World) (r : awaited unit) :
  process envelope_from rcpts message_bytes w = (w', r) ->
  (forall e, r <> Failed e) ->
  exists parsed verdict,
    parse_email L message_bytes = Ok parsed
    /\ predict U spam_model (Some (text_for_scoring envelope_from parsed)) = Ok verdict
    /\ stats w' =
         record_event (is_spam verdict)
           (sender_domain_of U envelope_from (from_ parsed))
           (event_of utcnow_isoformat envelope_from rcpts parsed verdict w) (stats w)
    /\ manager w' =
         b_manager
           (broadcast T (manager w)
              (EmailEventMsg
                 (event_of utcnow_isoformat envelope_from rcpts parsed verdict w)
                 (summary_stats (stats w'))))
    /\ wire w' =
         wire w
         ++ b_log
              (broadcast T (manager w)
                 (EmailEventMsg
                    (event_of utcnow_isoformat envelope_from rcpts parsed verdict w)
                    (summary_stats (stats w'))))
    /\ r = match
             b_raised
               (broadcast T (manager w)
                  (EmailEventMsg
                     (event_of utcnow_isoformat envelope_from rcpts parsed verdict w)
                     (summary_stats (stats w'))))
           with
           | None => Returned tt
           | Some b => Cancelled b
           end
    /\ ticks w' = Datatypes.S (ticks w)
    /\ stdout w' = stdout w.
Proof.
  intros H Hr.
  destruct (process_email_cases envelope_from rcpts message_bytes w)
    as [(e & E & _)|(parsed & verdict & Hp & Hv & E)];
    rewrite E in H; injection H as <- <-.
  - now contradiction (Hr e).
  - exists parsed, verdict. cbn [stats manager wire ticks stdout]. repeat split; assumption.
Qed.

(** A raise of [process_email] that [handle_DATA] catches comes from the
    parser or the classifier, and the world is as it was. *)
Lemma process_email_failed (envelope_from : str) (rcpts : list str)
    (message_bytes : bytes) (w w' : World) (e : exn) :
  process envelope_from rcpts message_bytes w = (w', Failed e) ->
  w' = w
  /\ (parse_email L message_bytes = Raise e
      \/ exists parsed,
           parse_email L message_bytes = Ok parsed
           /\ predict U spam_model (Some (text_for_scoring envelope_from parsed))
              = Raise e).
Proof.
  intros H.
  destruct (process_email_cases envelope_from rcpts message_bytes w)
    as [(e' & E & Hwhy)|(parsed & verdict & _ & _ & E)];
    rewrite E in H.
  - injection H as <- <-. now split.
  - exfalso. injection H as _ H. now destruct (b_raised _).
Qed.

(** Each call of the handler applies at most one update. *)
Lemma deliver_stats (w : World) (envelope : Envelope) :
  exists us, (List.length us <= 1)%nat
    /\ stats (deliver U L T spam_model utcnow_isoformat w envelope)
       = record_all us (stats w).
Proof.
  unfold deliver, handle_DATA, smtp_callback.
  destruct (process _ _ _ w) as [w' r] eqn:Hp.
  destruct r as [u|e|b].
  - apply process_email_done in Hp as (parsed & verdict & _ & _ & Hs & _);
      [|discriminate].
    eexists [{| u_spam := _; u_domain := _; u_event := _ |}].
    split; [cbn; lia|]. exact Hs.
  - apply process_email_failed in Hp as [-> _].
    exists []. split; [cbn; lia|reflexivity].
  - apply process_email_done in Hp as (parsed & verdict & _ & _ & Hs & _);
      [|discriminate].
    eexists [{| u_spam := _; u_domain := _; u_event := _ |}].
    split; [cbn; lia|]. exact Hs.
Qed.

Lemma deliver_all_stats (envelopes : list Envelope) (w : World) :
  exists us, (List.length us <= List.length envelopes)%nat
    /\ stats (deliveries envelopes w) = record_all us (stats w).
Proof.
  revert w. induction envelopes as [|env envs IH]; intros w.
  - exists []. split; [cbn; lia|reflexivity].
  - unfold deliver_all. cbn [fold_left]. fold (deliveries envs).
    destruct (deliver_stats w env) as (us1 & H1 & E1).
    destruct (IH (deliver U L T spam_model utcnow_isoformat w env)) as (us2 & H2 & E2).
    exists (us1 ++ us2). split.
    + rewrite length_app. cbn [List.length]. lia.
    + rewrite record_all_app, <- E1. exact E2.
Qed.

End PipelineFacts.

(** C4: the history never holds more than 200 events, whatever is
    delivered; a delivery that [process_email] completes, and also one whose
    broadcast is cancelled, puts its event, stamped with the clock reading,
    at index 0; the history is the
    newest-first list of the events of all processed deliveries cut at 200,
    so that after 201 of them it is the 201st down to the 2nd: the slot of
    the 1st is gone, and its event is absent unless a later delivery
    produced an equal one. *)
Theorem recent_events_bounded :
  (forall U L T spam_model clock envelopes,
     (List.length
        (events (stats (deliver_all U L T spam_model clock envelopes initial_world)))
      <= 200)%nat)
  /\ (forall U L T spam_model clock envelope_from rcpts message_bytes w w' r,
        process_email U L T spam_model clock envelope_from rcpts message_bytes w
          = (w', r) ->
        (forall e, r <> Failed e) ->
        exists event,
          nth_error (events (stats w')) 0 = Some event
          /\ ev_from event = envelope_from
          /\ ev_to event = rcpts
          /\ ev_time event = clock (ticks w) ++ lit "Z")
  /\ (forall us, (List.length (events (record_all us initial_stats)) <= 200)%nat)
  /\ (forall us u,
        nth_error (events (record_all (us ++ [u]) initial_stats)) 0 = Some (u_event u))
  /\ (forall us,
        events (record_all us initial_stats) = firstn 200 (rev (map u_event us)))
  /\ (forall first mid newest,
        List.length mid = 199%nat ->
        events (record_all (first :: mid ++ [newest]) initial_stats)
          = u_event newest :: rev (map u_event mid)
        /\ nth_error (events (record_all (first :: mid ++ [newest]) initial_stats)) 0
             = Some (u_event newest)
        /\ (~ In (u_event first) (map u_event (mid ++ [newest])) ->
            ~ In (u_event first)
                (events (record_all (first :: mid ++ [newest]) initial_stats)))).
Proof.
  assert (Hall : forall us,
             events (record_all us initial_stats) = firstn 200 (rev (map u_event us)))
    by exact events_from_initial.
  assert (Hlen : forall us,
             (List.length (events (record_all us initial_stats)) <= 200)%nat).
  { intros us. rewrite Hall. apply firstn_le_length. }
  assert (H201 : forall first mid newest,
             List.length mid = 199%nat ->
             events (record_all (first :: mid ++ [newest]) initial_stats)
             = u_event newest :: rev (map u_event mid)).
  { intros first mid newest Hmid. rewrite Hall.
    change (first :: mid ++ [newest]) with ([first] ++ mid ++ [newest]).
    rewrite !map_app, !rev_app_distr. cbn [map rev app].
    change (u_event newest :: rev (map u_event mid) ++ [u_event first])
      with ((u_event newest :: rev (map u_event mid)) ++ [u_event first]).
    apply firstn_exact. cbn [List.length]. rewrite length_rev, length_map. lia. }
  split; [|split]; [| |repeat split].
  - intros U L T spam_model clock envelopes.
    destruct (deliver_all_stats U L T spam_model clock envelopes initial_world)
      as (us & _ & ->).
    apply Hlen.
  - intros U L T spam_model clock envelope_from rcpts message_bytes w w' r H Hr.
    apply process_email_done in H as (parsed & verdict & _ & _ & Hs & _);
      [|exact Hr].
    exists (event_of clock envelope_from rcpts parsed verdict w).
    rewrite Hs. repeat split.
    unfold record_event, appendleft. cbn [events].
    now destruct (List.length (events (stats w)) <? EVENTS_MAXLEN)%nat.
  - exact Hlen.
  - intros us u. rewrite Hall, map_app, rev_app_distr. reflexivity.
  - exact Hall.
  - now apply H201.
  - rewrite H201 by assumption. reflexivity.
  - intros Hnot Hin. apply Hnot. rewrite H201 in Hin by assumption.
    rewrite map_app. cbn [map]. apply in_or_app.
    destruct Hin as [Hin|Hin]; [right; now left|left; now apply in_rev].
Qed.

(** C4 on 201 sample deliveries with distinct time stamps. *)
Lemma recent_events_bounded_witness :
  nth_error
    (events (record_all
               (sample_update 0 :: map sample_update (seq 1 199) ++ [sample_update 200])
               initial_stats)) 0
    = Some (u_event (sample_update 200))
  /\ ~ In (u_event (sample_update 0))
        (events (record_all
                   (sample_update 0 :: map sample_update (seq 1 199) ++ [sample_update 200])
                   initial_stats)).
Proof.
  destruct recent_events_bounded as (_ & _ & _ & _ & _ & H).
  destruct (H (sample_update 0) (map sample_update (seq 1 199)) (sample_update 200))
    as (_ & H0 & Habs).
  - reflexivity.
  - split; [exact H0|]. apply Habs. apply not_in_by_time. vm_compute. reflexivity.
Defined.

(** C5: from the all-zero state the three counters count the processed
    deliveries, the spam verdicts and the counted sender domains, hence
    spam_count <= total_emails and sum(domains.values()) <= total_emails
    after every delivery; and from the first event without a counted sender
    domain on, the sum stays strictly below the total. *)
Theorem counters_invariant :
  (forall us,
     total_emails (record_all us initial_stats) = Z.of_nat (List.length us)
     /\ spam_count (record_all us initial_stats) = count_spam us
     /\ counter_total (domains (record_all us initial_stats)) = count_counted us
     /\ (spam_count (record_all us initial_stats)
         <= total_emails (record_all us initial_stats))%Z
     /\ (counter_total (domains (record_all us initial_stats))
         <= total_emails (record_all us initial_stats))%Z)
  /\ (forall us1 u us2,
        counted (u_domain u) = false ->
        (counter_total (domains (record_all (us1 ++ u :: us2) initial_stats))
         < total_emails (record_all (us1 ++ u :: us2) initial_stats))%Z)
  /\ (forall U L T spam_model clock envelopes,
        (spam_count (stats (deliver_all U L T spam_model clock envelopes initial_world))
         <= total_emails (stats (deliver_all U L T spam_model clock envelopes initial_world)))%Z
        /\ (counter_total
              (domains (stats (deliver_all U L T spam_model clock envelopes initial_world)))
            <= total_emails
                 (stats (deliver_all U L T spam_model clock envelopes initial_world)))%Z).
Proof.
  assert (Hcount : forall us,
             total_emails (record_all us initial_stats) = Z.of_nat (List.length us)
             /\ spam_count (record_all us initial_stats) = count_spam us
             /\ counter_total (domains (record_all us initial_stats)) = count_counted us).
  { intros us. destruct (totals_record_all us initial_stats) as (Ht & Hs & Hd).
    rewrite Ht, Hs, Hd. cbn. repeat split; lia. }
  assert (Hle : forall us,
             (spam_count (record_all us initial_stats)
              <= total_emails (record_all us initial_stats))%Z
             /\ (counter_total (domains (record_all us initial_stats))
                 <= total_emails (record_all us initial_stats))%Z).
  { intros us. destruct (Hcount us) as (-> & -> & ->).
    unfold count_spam, count_counted.
    pose proof (filter_length_le u_spam us).
    pose proof (filter_length_le (fun u => counted (u_domain u)) us). lia. }
  split; [|split].
  - intros us. destruct (Hcount us) as (Ht & Hs & Hd). destruct (Hle us) as (H1 & H2).
    repeat split; assumption.
  - intros us1 u us2 Hu. destruct (Hcount (us1 ++ u :: us2)) as (-> & _ & ->).
    unfold count_counted.
    pose proof (filter_length_lt (fun u => counted (u_domain u)) us1 us2 u Hu). lia.
  - intros U L T spam_model clock envelopes.
    destruct (deliver_all_stats U L T spam_model clock envelopes initial_world)
      as (us & _ & ->).
    apply Hle.
Qed.

(** C5 on three sample deliveries, the second without a sender domain. *)
Lemma counters_invariant_witness :
  (counter_total
     (domains (record_all ([sample_update 1] ++ sample_update 0 :: [sample_update 2])
                 initial_stats))
   < total_emails
       (record_all ([sample_update 1] ++ sample_update 0 :: [sample_update 2])
          initial_stats))%Z.
Proof.
  destruct counters_invariant as (_ & H & _).
  apply (H [sample_update 1] (sample_update 0) [sample_update 2]).
  reflexivity.
Defined.

(** C6: the sender domain is the lower-cased text after the last [@] of
    the envelope sender when that has an [@]; otherwise, for a non-empty
    From header with an [@], the text after its last [@], stripped of
    surrounding spaces and [>] and lower-cased; otherwise there is none, and
    then the domain counts are left as they were.  [after_last] is indeed
    the text after the last occurrence, and a [process_email] that the
    parser and the classifier let through counts exactly this domain. *)
Theorem sender_domain_derivation (U : UnicodeDB) (envelope_from parsed_from : str) :
  sender_domain_of U envelope_from parsed_from =
    match after_last AT envelope_from with
    | Some d => Some (lower U d)
    | None =>
        match parsed_from, after_last AT parsed_from with
        | _ :: _, Some d => Some (lower U (strip (lit " >") d))
        | _, _ => None
        end
    end
  /\ (forall pre d, has_char AT d = false -> after_last AT (pre ++ AT :: d) = Some d)
  /\ (forall s, has_char AT s = false -> after_last AT s = None)
  /\ (forall spam event st, domains (record_event spam None event st) = domains st)
  /\ (forall L T spam_model clock rcpts message_bytes w w' r,
        process_email U L T spam_model clock envelope_from rcpts message_bytes w
          = (w', r) ->
        (forall e, r <> Failed e) ->
        exists parsed,
          parse_email L message_bytes = Ok parsed
          /\ domains (stats w') =
               match sender_domain_of U envelope_from (from_ parsed) with
               | Some ((_ :: _) as d) => counter_incr d (domains (stats w))
               | _ => domains (stats w)
               end).
Proof.
  split; [apply sender_domain_of_spec|].
  split; [intros pre d; apply after_last_app|].
  split; [apply after_last_none|].
  split; [reflexivity|].
  intros L T spam_model clock rcpts message_bytes w w' r H Hr.
  apply process_email_done in H as (parsed & verdict & Hp & _ & Hs & _);
    [|exact Hr].
  exists parsed. split; [exact Hp|]. rewrite Hs. reflexivity.
Qed.

(** The two examples of the specification: the envelope sender decides
    when it has a domain, and the From header is the fallback. *)
Lemma sender_domain_examples (U : UnicodeDB) :
  sender_domain_of U (lit "promo@deals.example.com") []
    = Some (lit "deals.example.com")
  /\ sender_domain_of U [] sale_header = Some (lit "shop.test")
  /\ sender_domain_of U (lit "MAILER-DAEMON") (lit "undisclosed") = None
  /\ sender_domain_of U (lit "user@") [] = Some [].
Proof. repeat split; reflexivity. Qed.



(* ================================================================== *)
(** * Properties of [broadcast] *)

Section BroadcastFacts.

Variable T : Transport.

(** The first loop when no send is cancelled: every observer is
    attempted, and the ones whose send failed are to be removed. *)
Lemma send_loop_spec (data : str) (conns : list Conn) :
  uncancelled T data conns = true ->
  send_loop T data conns =
  (map (fun c => {| to_conn := c; payload := data; delivered := reachable T data c |})
     conns,
   filter (fun c => negb (reachable T data c)) conns,
   None).
Proof.
  induction conns as [|c conns IH]; [reflexivity|].
  cbn [uncancelled forallb]. fold (uncancelled T data conns).
  intros H. apply andb_true_iff in H as [Hc H].
  cbn [send_loop map filter]. rewrite (IH H).
  unfold reachable. now destruct (send_text T c data).
Qed.

(** The first loop when a send is cancelled: the loop stops there. *)
Lemma send_loop_cancelled (data : str) (l1 l2 : list Conn) (c : Conn) (b : base_exn) :
  uncancelled T data l1 = true ->
  send_text T c data = Cancelled b ->
  exists to_remove,
    send_loop T data (l1 ++ c :: l2) =
    (map (fun c => {| to_conn := c; payload := data; delivered := reachable T data c |})
       (l1 ++ [c]),
     to_remove,
     Some b).
Proof.
  intros H Hc. induction l1 as [|x l1 IH].
  - cbn [app send_loop map]. unfold reachable. rewrite Hc. now eexists.
  - cbn [uncancelled forallb] in H. fold (uncancelled T data l1) in H.
    apply andb_true_iff in H as [Hx H]. destruct (IH H) as (rs & E).
    cbn [app send_loop map]. rewrite E.
    unfold reachable. destruct (send_text T x data); [now eexists|now eexists|discriminate].
Qed.

Lemma remove_first_absent (c : Conn) (l : list Conn) :
  mem_conn c l = false -> remove_first c l = l.
Proof.
  induction l as [|y l IH]; [reflexivity|].
  cbn [mem_conn existsb remove_first]. fold (mem_conn c l).
  destruct (c =? y)%nat; [discriminate|]. cbn [orb]. intros H. now rewrite IH.
Qed.

Lemma active_disconnect (self : ConnectionManager) (c : Conn) :
  active (disconnect self c) = remove_first c (active self).
Proof.
  unfold disconnect. destruct (mem_conn c (active self)) eqn:E; [reflexivity|].
  now rewrite remove_first_absent.
Qed.

Lemma active_disconnect_all (rs : list Conn) (self : ConnectionManager) :
  active (fold_left disconnect rs self) =
  fold_left (fun l c => remove_first c l) rs (active self).
Proof.
  revert self. induction rs as [|r rs IH]; intros self; [reflexivity|].
  cbn [fold_left]. now rewrite IH, active_disconnect.
Qed.

(** Removing others leaves an entry where it is. *)
Lemma remove_all_keeps_head (rs : list Conn) (a : Conn) (l : list Conn) :
  ~ In a rs ->
  fold_left (fun l c => remove_first c l) rs (a :: l) =
  a :: fold_left (fun l c => remove_first c l) rs l.
Proof.
  revert l. induction rs as [|r rs IH]; intros l Hn; [reflexivity|].
  cbn [fold_left remove_first].
  destruct (Nat.eqb_spec r a) as [->|Hne].
  - exfalso. apply Hn. now left.
  - apply IH. intros Hin. apply Hn. now right.
Qed.

(** Removing, one by one, the entries that failed leaves those that did
    not, in their order. *)
Lemma remove_failed (ok : Conn -> bool) (l : list Conn) :
  fold_left (fun l c => remove_first c l) (filter (fun c => negb (ok c)) l) l =
  filter ok l.
Proof.
  induction l as [|a l IH]; [reflexivity|].
  cbn [filter]. destruct (ok a) eqn:Ha; cbn [negb].
  - rewrite remove_all_keeps_head; [now rewrite IH|].
    intros Hin. apply filter_In in Hin as [_ Hin]. now rewrite Ha in Hin.
  - cbn [fold_left remove_first]. rewrite Nat.eqb_refl. exact IH.
Qed.

Lemma broadcast_uncancelled (self : ConnectionManager) (message : Message) :
  uncancelled T (json_dumps T message) (active self) = true ->
  b_log (broadcast T self message)
    = map (fun c => {| to_conn := c;
                       payload := json_dumps T message;
                       delivered := reachable T (json_dumps T message) c |})
        (active self)
  /\ active (b_manager (broadcast T self message))
     = filter (reachable T (json_dumps T message)) (active self)
  /\ b_raised (broadcast T self message) = None.
Proof.
  intros H. unfold broadcast. rewrite (send_loop_spec _ _ H).
  cbn [b_log b_manager b_raised].
  now rewrite active_disconnect_all, remove_failed.
Qed.

(** C7, as the code has it: when no send raises anything but an instance
    of [Exception], a broadcast attempts one send, of the serialised
    message, to every registered observer in order, whether or not earlier
    sends failed, and when it completes the registry holds exactly the
    observers whose send returned: every failing one is removed, every
    other one is kept.  A send that raises an exception that is not an
    instance of [Exception] ends the broadcast there: the observers after it
    are not attempted, nobody is removed, and the exception is raised. *)
Theorem broadcast_isolation (self : ConnectionManager) (message : Message) :
  (uncancelled T (json_dumps T message) (active self) = true ->
   map to_conn (b_log (broadcast T self message)) = active self
   /\ (forall a, In a (b_log (broadcast T self message)) ->
         payload a = json_dumps T message
         /\ delivered a = reachable T (json_dumps T message) (to_conn a))
   /\ active (b_manager (broadcast T self message))
        = filter (reachable T (json_dumps T message)) (active self)
   /\ (forall c, In c (active self) ->
         reachable T (json_dumps T message) c = false ->
         ~ In c (active (b_manager (broadcast T self message))))
   /\ (forall c, In c (active self) ->
         reachable T (json_dumps T message) c = true ->
         In c (active (b_manager (broadcast T self message))))
   /\ b_raised (broadcast T self message) = None)
  /\ (forall l1 c l2 b,
        active self = l1 ++ c :: l2 ->
        uncancelled T (json_dumps T message) l1 = true ->
        send_text T c (json_dumps T message) = Cancelled b ->
        map to_conn (b_log (broadcast T self message)) = l1 ++ [c]
        /\ b_manager (broadcast T self message) = self
        /\ b_raised (broadcast T self message) = Some b).
Proof.
  split.
  - intros H. destruct (broadcast_uncancelled self message H) as (-> & -> & ->).
    split; [|split; [|split; [|split; [|split]]]].
    + rewrite map_map. cbn [to_conn]. apply map_id.
    + intros a Ha. apply in_map_iff in Ha as (c & <- & _). now split.
    + reflexivity.
    + intros c _ Hc Hin. apply filter_In in Hin as [_ Hin]. now rewrite Hc in Hin.
    + intros c Hin Hc. apply filter_In. now split.
    + reflexivity.
  - intros l1 c l2 b Hl H1 Hc. unfold broadcast. rewrite Hl.
    destruct (send_loop_cancelled (json_dumps T message) l1 l2 c H1 Hc) as (rs & ->).
    cbn [b_log b_manager b_raised]. repeat split.
    rewrite map_map. cbn [to_conn]. apply map_id.
Qed.

End BroadcastFacts.

(** C7 as stated fails: when the send to the second of three observers
    raises the cancellation of the task, the third is never attempted and
    the second, whose send raised, stays registered. *)
Lemma broadcast_cancelled_aborts :
  map to_conn
    (b_log (broadcast second_cancelled {| active := [1; 2; 3]%nat |}
              (StatusMsg (summary_stats initial_stats))))
    = [1; 2]%nat
  /\ ~ In 3%nat
         (map to_conn
            (b_log (broadcast second_cancelled {| active := [1; 2; 3]%nat |}
                      (StatusMsg (summary_stats initial_stats)))))
  /\ In 2%nat
       (active
          (b_manager (broadcast second_cancelled {| active := [1; 2; 3]%nat |}
                        (StatusMsg (summary_stats initial_stats)))))
  /\ b_raised (broadcast second_cancelled {| active := [1; 2; 3]%nat |}
                 (StatusMsg (summary_stats initial_stats)))
     = Some (BaseExn "CancelledError" EmptyString).
Proof.
  repeat split.
  - cbn. intros [H|[H|[]]]; discriminate H.
  - cbn. right. now left.
Qed.

(** The example of the specification: of three observers the second is
    broken; the first and the third are served and the second is removed. *)
Lemma broadcast_three_observers (message : Message) :
  broadcast second_broken {| active := [1; 2; 3]%nat |} message =
  {| b_manager := {| active := [1; 3]%nat |};
     b_log :=
       [ {| to_conn := 1%nat; payload := lit "{}"; delivered := true |};
         {| to_conn := 2%nat; payload := lit "{}"; delivered := false |};
         {| to_conn := 3%nat; payload := lit "{}"; delivered := true |} ];
     b_raised := None |}.
Proof. reflexivity. Qed.

(* ================================================================== *)
(** * Properties of the top domains *)

Lemma insert_desc_perm (x : str * Z) (l : list (str * Z)) :
  Permutation (insert_desc x l) (x :: l).
Proof.
  induction l as [|y l IH]; [reflexivity|].
  cbn [insert_desc]. destruct (snd x <? snd y)%Z; [|reflexivity].
  rewrite IH. apply perm_swap.
Qed.

Lemma sort_desc_perm (l : list (str * Z)) : Permutation (sort_desc l) l.
Proof.
  induction l as [|x l IH]; [reflexivity|].
  cbn [sort_desc]. rewrite insert_desc_perm. now constructor.
Qed.

Lemma insert_desc_sorted (x : str * Z) (l : list (str * Z)) :
  StronglySorted (fun a b => (snd b <= snd a)%Z) l ->
  StronglySorted (fun a b => (snd b <= snd a)%Z) (insert_desc x l).
Proof.
  induction l as [|y l IH]; intros Hs.
  - repeat constructor.
  - apply StronglySorted_inv in Hs as [Hl Hy]. cbn [insert_desc].
    destruct (Z.ltb_spec (snd x) (snd y)) as [Hlt|Hge].
    + constructor; [now apply IH|].
      apply (@Permutation_Forall _ _ (x :: l)).
      * symmetry. apply insert_desc_perm.
      * constructor; [lia|exact Hy].
    + constructor; [now constructor|].
      constructor; [exact Hge|].
      eapply Forall_impl; [|exact Hy]. cbn. intros z Hz. lia.
Qed.

Lemma sort_desc_sorted (l : list (str * Z)) :
  StronglySorted (fun a b => (snd b <= snd a)%Z) (sort_desc l).
Proof.
  induction l as [|x l IH]; [constructor|].
  cbn [sort_desc]. now apply insert_desc_sorted.
Qed.

Lemma sorted_app_cross {A : Type} (R : A -> A -> Prop) (l1 l2 : list A) :
  StronglySorted R (l1 ++ l2) ->
  forall x y, In x l1 -> In y l2 -> R x y.
Proof.
  induction l1 as [|a l1 IH]; intros Hs x y Hx Hy; [contradiction|].
  cbn [app] in Hs. apply StronglySorted_inv in Hs as [Hs Ha].
  destruct Hx as [<-|Hx].
  - rewrite Forall_forall in Ha. apply Ha, in_or_app. now right.
  - now apply IH.
Qed.

Lemma sorted_app_left {A : Type} (R : A -> A -> Prop) (l1 l2 : list A) :
  StronglySorted R (l1 ++ l2) -> StronglySorted R l1.
Proof.
  induction l1 as [|a l1 IH]; intros Hs; [constructor|].
  cbn [app] in Hs. apply StronglySorted_inv in Hs as [Hs Ha].
  constructor; [now apply IH|].
  apply Forall_app in Ha. tauto.
Qed.

(** The sort is stable: among the items of one count nothing moves. *)
Lemma filter_insert_desc (c : Z) (x : str * Z) (l : list (str * Z)) :
  filter (has_count c) (insert_desc x l) =
  if has_count c x then x :: filter (has_count c) l else filter (has_count c) l.
Proof.
  induction l as [|y l IH]; [reflexivity|].
  cbn [insert_desc]. destruct (Z.ltb_spec (snd x) (snd y)) as [Hlt|Hge].
  - cbn [filter]. rewrite IH. unfold has_count in *.
    destruct (Z.eqb_spec (snd x) c) as [Hx|Hx]; [|reflexivity].
    destruct (Z.eqb_spec (snd y) c) as [Hy|Hy]; [lia|reflexivity].
  - reflexivity.
Qed.

Lemma filter_sort_desc (c : Z) (l : list (str * Z)) :
  filter (has_count c) (sort_desc l) = filter (has_count c) l.
Proof.
  induction l as [|x l IH]; [reflexivity|].
  cbn [sort_desc filter]. rewrite filter_insert_desc, IH. reflexivity.
Qed.

(** ** The order of the keys *)

Lemma str_eqb_eq (a b : str) : str_eqb a b = true <-> a = b.
Proof.
  unfold str_eqb. destruct (list_eq_dec N.eq_dec a b); split; congruence.
Qed.

Lemma keys_counter_incr (k : str) (d : Counter) :
  map fst (counter_incr k d) =
  if str_mem k (map fst d) then map fst d else map fst d ++ [k].
Proof.
  induction d as [|[k' c] d IH]; [reflexivity|].
  cbn [counter_incr map fst str_mem existsb]. fold (str_mem k (map fst d)).
  destruct (str_eqb k k'); cbn [orb map fst]; [reflexivity|].
  rewrite IH. now destruct (str_mem k (map fst d)).
Qed.

Lemma keys_record_all (us : list Update) (st : Stats) :
  map fst (domains (record_all us st)) =
  fold_left (fun seen k => if str_mem k seen then seen else seen ++ [k])
    (counted_domains us) (map fst (domains st)).
Proof.
  revert st. induction us as [|u us IH]; intros st; [reflexivity|].
  change (record_all (u :: us) st) with (record_all us (apply_update st u)).
  rewrite IH. unfold apply_update, record_event. cbn [domains counted_domains].
  destruct (u_domain u) as [[|c d]|]; try reflexivity.
  cbn [fold_left]. now rewrite keys_counter_incr.
Qed.

(** ** One count at a time *)

Lemma str_eqb_spec (a b : str) : reflect (a = b) (str_eqb a b).
Proof.
  unfold str_eqb. destruct (list_eq_dec N.eq_dec a b); now constructor.
Qed.

(** [counter[k] += 1] adds one to the count of [k] and to no other. *)
Lemma counter_get_incr (k k' : str) (d : Counter) :
  counter_get k' (counter_incr k d) =
  if str_eqb k' k then (counter_get k' d + 1)%Z else counter_get k' d.
Proof.
  induction d as [|[k0 c] d IH].
  - cbn. now destruct (str_eqb k' k).
  - cbn [counter_incr]. destruct (str_eqb_spec k k0) as [->|Hk]; cbn [counter_get].
    + now destruct (str_eqb_spec k' k0).
    + rewrite IH. destruct (str_eqb_spec k' k0) as [->|Hk']; [|reflexivity].
      destruct (str_eqb_spec k0 k) as [E|_]; [|reflexivity].
      now contradiction Hk.
Qed.

(** A delivery with a counted sender domain raises that domain's count by
    exactly one. *)
Lemma domain_count_increment (spam : bool) (c : codepoint) (d : str)
    (event : Event) (st : Stats) :
  counter_get (c :: d) (domains (record_event spam (Some (c :: d)) event st))
  = (counter_get (c :: d) (domains st) + 1)%Z.
Proof.
  cbn [record_event domains]. rewrite counter_get_incr.
  now destruct (str_eqb_spec (c :: d) (c :: d)).
Qed.

(** C8: the snapshot lists [min 10 n] of the [n] counted domains, highest
    count first; no domain left out has a higher count than a listed one;
    domains of equal count appear in the order the counter holds them,
    which is the order of their first occurrence among the deliveries, the
    listed ones being the earliest; and the list depends on the counts
    alone, so that it is the same at every call while they are unchanged. *)
Theorem top_domains_order (st : Stats) :
  s_top_domains (summary_stats st) = most_common 10 (domains st)
  /\ List.length (s_top_domains (summary_stats st))
       = Nat.min 10 (List.length (domains st))
  /\ StronglySorted (fun a b => (snd b <= snd a)%Z) (s_top_domains (summary_stats st))
  /\ (exists rest,
        Permutation (s_top_domains (summary_stats st) ++ rest) (domains st)
        /\ forall x y, In x (s_top_domains (summary_stats st)) -> In y rest ->
                       (snd y <= snd x)%Z)
  /\ (forall c, exists later,
        filter (has_count c) (domains st)
          = filter (has_count c) (s_top_domains (summary_stats st)) ++ later)
  /\ (forall st', domains st' = domains st ->
        s_top_domains (summary_stats st') = s_top_domains (summary_stats st))
  /\ (forall us,
        map fst (domains (record_all us initial_stats)) = first_seen (counted_domains us)).
Proof.
  cbn [summary_stats s_top_domains]. unfold most_common.
  pose proof (sort_desc_sorted (domains st)) as Hs.
  rewrite <- (firstn_skipn 10 (sort_desc (domains st))) in Hs.
  repeat split.
  - rewrite length_firstn. f_equal. apply Permutation_length, sort_desc_perm.
  - eapply sorted_app_left. exact Hs.
  - exists (skipn 10 (sort_desc (domains st))). split.
    + rewrite firstn_skipn. apply sort_desc_perm.
    + intros x y Hx Hy. eapply sorted_app_cross with (R := fun a b => (snd b <= snd a)%Z);
        eassumption.
  - intros c. exists (filter (has_count c) (skipn 10 (sort_desc (domains st)))).
    rewrite <- filter_app, firstn_skipn. symmetry. apply filter_sort_desc.
  - intros st' E. now rewrite E.
  - intros us. rewrite keys_record_all. reflexivity.
Qed.

(** Three domains, two of them tied: the tie keeps the order of first
    occurrence, and counting a domain again does not move the others. *)
Lemma top_domains_example :
  most_common 2 [(lit "a.test", 1%Z); (lit "b.test", 2%Z); (lit "c.test", 1%Z)]
    = [(lit "b.test", 2%Z); (lit "a.test", 1%Z)]
  /\ most_common 10
       (counter_incr (lit "c.test")
          [(lit "a.test", 1%Z); (lit "b.test", 2%Z); (lit "c.test", 1%Z)])
     = [(lit "b.test", 2%Z); (lit "c.test", 2%Z); (lit "a.test", 1%Z)].
Proof. split; reflexivity. Qed.

(* ================================================================== *)
(** * The statements at sample inputs *)

(** C1 on a plain message: every call returns, and so does [parse_email],
    with empty strings for the two absent headers. *)
Lemma parse_email_outcome_witness :
  parse_email plain_text_lib sale_message =
  Ok {| subject := [];
        from_ := sale_header;
        to_ := [];
        body := lit "hello";
        raw := decode_replace plain_text_lib sale_message |}.
Proof.
  destruct (parse_email_outcome plain_text_lib sale_message) as (_ & H & _).
  exact (H tt None (Some sale_header) None (CStr (lit "hello"))
           eq_refl eq_refl eq_refl eq_refl eq_refl).
Defined.

(** C2 on a text with two of the phrases and neither "!!" nor a URL. *)
Lemma keyword_scoring_witness :
  score (rule_based_detection plain_db (lit "Buy now, WINNER! Freedom is cheaper."))
    = 0.5%float.
Proof.
  destruct (keyword_scoring plain_db (lit "Buy now, WINNER! Freedom is cheaper."))
    as (_ & _ & H).
  rewrite H; reflexivity.
Defined.

(** C6 and the fallback example of the specification, through the whole
    of [process_email]: an empty envelope sender and the header
    [From: "Sale" <sale@shop.test>] count one for "shop.test". *)
Lemma sender_domain_derivation_witness :
  exists w',
    process_email plain_db plain_text_lib second_broken {| pipeline := None |}
      sample_clock [] [lit "me@home.test"] sale_message three_observers
      = (w', Returned tt)
    /\ domains (stats w') = [(lit "shop.test", 1%Z)].
Proof.
  eexists. split; [reflexivity|].
  destruct (sender_domain_derivation plain_db [] sale_header) as (_ & _ & _ & _ & H).
  destruct (H plain_text_lib second_broken {| pipeline := None |} sample_clock
              [lit "me@home.test"] sale_message three_observers _ (Returned tt)
              eq_refl)
    as (parsed & Hp & Hd); [discriminate|].
  injection Hp as <-. exact Hd.
Defined.

(** C7 on three observers, the second broken. *)
Lemma broadcast_isolation_witness :
  map to_conn
    (b_log (broadcast second_broken {| active := [1; 2; 3]%nat |}
              (StatusMsg (summary_stats initial_stats))))
    = [1; 2; 3]%nat
  /\ ~ In 2%nat
         (active
            (b_manager (broadcast second_broken {| active := [1; 2; 3]%nat |}
                          (StatusMsg (summary_stats initial_stats)))))
  /\ In 3%nat
       (active
          (b_manager (broadcast second_broken {| active := [1; 2; 3]%nat |}
                        (StatusMsg (summary_stats initial_stats))))).
Proof.
  destruct (broadcast_isolation second_broken {| active := [1; 2; 3]%nat |}
              (StatusMsg (summary_stats initial_stats))) as (H & _).
  destruct (H eq_refl) as (Hall & _ & _ & Hout & Hin & _).
  split; [exact Hall|]. split.
  - apply Hout; [right; left; reflexivity|reflexivity].
  - apply Hin; [right; right; left; reflexivity|reflexivity].
Defined.

(** C8 on two states with the same counts and different totals. *)
Lemma top_domains_order_witness :
  s_top_domains (summary_stats (record_all [sample_update 1] initial_stats))
  = s_top_domains (summary_stats (record_all [sample_update 1; sample_update 0] initial_stats)).
Proof.
  destruct (top_domains_order
              (record_all [sample_update 1; sample_update 0] initial_stats))
    as (_ & _ & _ & _ & _ & H & _).
  apply H. reflexivity.
Defined.


(** One delivery through the handler, end to end: the message is accepted,
    counted once under "shop.test" and not as spam, its event is sent to the
    three observers, and the broken one is dropped. *)
Lemma delivery_example :
  let r := handle_DATA
             (smtp_callback plain_db plain_text_lib second_broken
                {| pipeline := None |} sample_clock)
             sale_envelope three_observers in
  snd r = Returned "250 Message accepted for delivery"%string
  /\ total_emails (stats (fst r)) = 1%Z
  /\ spam_count (stats (fst r)) = 0%Z
  /\ domains (stats (fst r)) = [(lit "shop.test", 1%Z)]
  /\ map ev_time (events (stats (fst r))) = [lit "2024-01-01T00:00:00Z"]
  /\ active (manager (fst r)) = [1; 3]%nat
  /\ map (fun a => (to_conn a, delivered a)) (wire (fst r))
       = [(1, true); (2, false); (3, true)]%nat.
Proof. repeat split; reflexivity. Qed.

(* ================================================================== *)
(** * More on the rule-based detector *)

Section DetectorFacts.

Variable U : UnicodeDB.

Lemma starts_with_app (p q t : str) :
  starts_with (p ++ q) t = starts_with p t && starts_with q (skipn (List.length p) t).
Proof.
  revert t. induction p as [|c p IH]; intros t; [reflexivity|].
  destruct t as [|d t]; [reflexivity|].
  cbn [app starts_with List.length skipn]. rewrite IH. apply andb_assoc.
Qed.

Lemma nonspace_at_skipn (m n : nat) (t : str) :
  nonspace_at U n (skipn m t) = nonspace_at U (m + n) t.
Proof.
  revert t. induction m as [|m IH]; intros t; [reflexivity|].
  destruct t as [|c t]; [now destruct n|]. apply IH.
Qed.

(** An optional character: taken when what follows then matches, else
    left. *)
Lemma match_rep_opt (k : option codepoint -> str -> option str) c q t :
  is_some (match_rep U k (Chr c) 0 (Some 1%nat) q t) =
  match t with
  | d :: t' => (d =? c)%N && is_some (k (Some d) t')
  | [] => false
  end || is_some (k q t).
Proof.
  destruct t as [|d t']; [reflexivity|].
  cbn [match_rep cls_match pred option_map].
  destruct (d =? c)%N; [|reflexivity].
  rewrite match_rep_done. now destruct (k (Some d) t').
Qed.

(** [\S+] at the end of a pattern: one character that is not white space. *)
Lemma match_rep_nonspace q t :
  is_some (match_rep U (match_at U []) NonSpace 1 None q t) = nonspace_at U 0 t.
Proof.
  destruct t as [|c t]; [reflexivity|].
  cbn [match_rep cls_match pred option_map nonspace_at nth_error].
  destruct (negb (is_space U c)); [|reflexivity].
  pose proof (match_rep_open U NonSpace None (Some c) t) as H.
  cbn [match_at] in H.
  now destruct (match_rep U _ NonSpace 0 None (Some c) t).
Qed.

Lemma match_at_slashes q t :
  is_some (match_at U (lits "://" ++ [plus NonSpace]) q t) =
  starts_with (lit "://") t && nonspace_at U 3 t.
Proof.
  unfold lits. rewrite match_at_literal.
  destruct (starts_with (lit "://") t); [|reflexivity].
  cbn [match_at plus andb]. rewrite match_rep_nonspace.
  apply (nonspace_at_skipn 3 0).
Qed.

(** Where [URL_RE] matches. *)
Lemma match_at_url q t : is_some (match_at U URL_RE q t) = url_at U t.
Proof.
  unfold URL_RE, url_at.
  change (lit "http://") with (lit "http" ++ lit "://").
  change (lit "https://") with (lit "http" ++ lit "s://").
  rewrite !starts_with_app.
  unfold lits at 1. rewrite match_at_literal.
  destruct (starts_with (lit "http") t); [|reflexivity].
  cbn [andb app match_at opt].
  change (List.length (lit "http")) with 4%nat.
  change (nonspace_at U 7 t) with (nonspace_at U (4 + 3) t).
  change (nonspace_at U 8 t) with (nonspace_at U (4 + 4) t).
  rewrite <- (nonspace_at_skipn 4 3 t), <- (nonspace_at_skipn 4 4 t).
  set (t4 := skipn 4 t). set (q4 := end_prev (lit "http") q).
  rewrite match_rep_opt, !match_at_slashes, orb_comm. f_equal.
  destruct t4 as [|d t5]; [reflexivity|].
  change (lit "s://") with (chr "s" :: lit "://").
  cbn [starts_with]. rewrite match_at_slashes.
  change (nonspace_at U 4 (d :: t5)) with (nonspace_at U 3 t5).
  now rewrite andb_assoc.
Qed.

(** [findall] finds something exactly when [search] does. *)
Lemma findall_nonempty (r : regex) q s :
  nonempty (findall_from U r q s 0) = search_from U r q s.
Proof.
  revert q. induction s as [|c s IH]; intros q; cbn [findall_from search_from].
  - now destruct (match_at U r q []).
  - destruct (match_at U r q (c :: s)); [reflexivity|]. apply IH.
Qed.

Lemma match_at_exclamation q t :
  is_some (match_at U EXCLAMATION_RE q t) = starts_with (lit "!!") t.
Proof.
  unfold EXCLAMATION_RE, at_least. cbn [match_at].
  destruct t as [|a t]; [reflexivity|].
  cbn [match_rep cls_match pred option_map].
  change (lit "!!") with [chr "!"; chr "!"]. cbn [starts_with].
  destruct (a =? chr "!")%N; [|reflexivity].
  destruct t as [|b t]; [reflexivity|].
  cbn [match_rep cls_match pred option_map andb].
  destruct (b =? chr "!")%N; [|reflexivity].
  pose proof (match_rep_open U (Chr (chr "!")) None (Some b) t) as H.
  cbn [match_at] in H.
  now destruct (match_rep U _ (Chr (chr "!")) 0 None (Some b) t).
Qed.

Lemma keyword_hits_le (text : str) : (keyword_hits U text <= 13)%nat.
Proof.
  unfold keyword_hits, count_true.
  etransitivity; [apply filter_length_le|]. now rewrite length_map.
Qed.

(** The verdict is a function of three observations of the text. *)
Lemma detection_score_of (text : str) :
  rule_based_detection U text =
  {| is_spam :=
       PrimFloat.leb 0.5
         (score_of (keyword_hits U text) (re_search U EXCLAMATION_RE text)
            (List.length (re_findall U URL_RE text)));
     score :=
       score_of (keyword_hits U text) (re_search U EXCLAMATION_RE text)
         (List.length (re_findall U URL_RE text)) |}.
Proof.
  unfold rule_based_detection, score_of, keyword_hits.
  now rewrite keyword_score_quarters, keyword_hits_meaning.
Qed.

End DetectorFacts.

(** All the values the final score can take, checked one by one. *)
Lemma score_of_cases (n : nat) (excl : bool) (urls : nat) :
  (n <= 13)%nat ->
  PrimFloat.leb 0 (score_of n excl urls) = true
  /\ PrimFloat.leb (score_of n excl urls) 1 = true
  /\ PrimFloat.leb 0.5 (score_of n excl urls)
     = ((2 <=? n)%nat || ((n =? 1)%nat && excl && (2 <=? urls)%nat)).
Proof.
  intros Hn.
  destruct urls as [|[|urls]];
    do 14 (destruct n as [|n]; [destruct excl; repeat split; reflexivity|]); lia.
Qed.

(** X1: whatever the text, the rule-based score lies between 0.0 and
    1.0. *)
Theorem score_in_unit_interval (U : UnicodeDB) (text : str) :
  PrimFloat.leb 0 (score (rule_based_detection U text)) = true
  /\ PrimFloat.leb (score (rule_based_detection U text)) 1 = true.
Proof.
  rewrite detection_score_of. cbn [score].
  destruct (score_of_cases (re_search U EXCLAMATION_RE text)
              (List.length (re_findall U URL_RE text)) (keyword_hits_le U text))
    as (H0 & H1 & _).
  now split.
Qed.

(** X2: the rule-based verdict is spam exactly when at least two patterns
    matched, or one pattern matched and the text has both "!!" and two or
    more URLs; in particular exclamation marks and URLs alone never make a
    text spam. *)
Theorem spam_verdict_decided (U : UnicodeDB) (text : str) :
  is_spam (rule_based_detection U text) =
  ((2 <=? keyword_hits U text)%nat
   || ((keyword_hits U text =? 1)%nat
       && re_search U EXCLAMATION_RE text
       && (2 <=? List.length (re_findall U URL_RE text))%nat)).
Proof.
  rewrite detection_score_of. cbn [is_spam].
  apply (score_of_cases (re_search U EXCLAMATION_RE text)
           (List.length (re_findall U URL_RE text)) (keyword_hits_le U text)).
Qed.

(** X3: the exclamation pattern is found exactly when the text contains
    two adjacent exclamation marks. *)
Theorem exclamation_found_iff (U : UnicodeDB) (text : str) :
  re_search U EXCLAMATION_RE text = contains (lit "!!") text.
Proof.
  unfold re_search, contains. rewrite search_from_somewhere.
  apply somewhere_ext. intros q t. apply match_at_exclamation.
Qed.

(** X4: [findall] reports a URL exactly when somewhere in the text, as
    written (the case matters), "http://" or "https://" is followed by a
    character that is not white space. *)
Theorem url_found_iff (U : UnicodeDB) (text : str) :
  nonempty (re_findall U URL_RE text) = somewhere (fun _ t => url_at U t) None text.
Proof.
  unfold re_findall. rewrite findall_nonempty, search_from_somewhere.
  apply somewhere_ext. intros q t. apply match_at_url.
Qed.

(* ================================================================== *)
(** * More on the statistics *)

Lemma str_mem_in (k : str) (l : list str) : str_mem k l = true <-> In k l.
Proof.
  unfold str_mem. rewrite existsb_exists. split.
  - intros (x & Hx & E). apply str_eqb_eq in E. now subst.
  - intros H. exists k. split; [exact H|]. now apply str_eqb_eq.
Qed.

Lemma counter_incr_ok (k : str) (d : Counter) :
  k <> [] -> counter_ok d -> counter_ok (counter_incr k d).
Proof.
  intros Hk [Hnd Hall]. split.
  - rewrite keys_counter_incr.
    destruct (str_mem k (map fst d)) eqn:E; [exact Hnd|].
    apply NoDup_app; [exact Hnd|repeat constructor; intros []|].
    intros a Ha [<-|[]]. apply str_mem_in in Ha. congruence.
  - clear Hnd. induction d as [|[k' c] d IH].
    + repeat constructor; cbn; [exact Hk|lia].
    + apply Forall_cons_iff in Hall as [[Hk' Hc] Hall]. cbn [counter_incr fst snd] in *.
      destruct (str_eqb k k'); constructor; cbn [fst snd]; auto.
      split; [exact Hk'|lia].
Qed.

Lemma apply_update_counter_ok (st : Stats) (u : Update) :
  counter_ok (domains st) -> counter_ok (domains (apply_update st u)).
Proof.
  intros H. unfold apply_update, record_event. cbn [domains].
  destruct (u_domain u) as [[|c k]|]; try exact H.
  apply counter_incr_ok; [discriminate|exact H].
Qed.

Lemma record_all_counter_ok (us : list Update) (st : Stats) :
  counter_ok (domains st) -> counter_ok (domains (record_all us st)).
Proof.
  revert st. induction us as [|u us IH]; intros st H; [exact H|].
  apply (IH (apply_update st u)). now apply apply_update_counter_ok.
Qed.

Lemma initial_counter_ok : counter_ok (domains initial_stats).
Proof. split; constructor. Qed.

(** X5: the domain counter keeps distinct keys, never the empty string,
    each with a count of at least 1, whatever is delivered. *)
Theorem counter_well_formed :
  (forall us, counter_ok (domains (record_all us initial_stats)))
  /\ (forall U L T spam_model clock envelopes,
        counter_ok
          (domains (stats (deliver_all U L T spam_model clock envelopes initial_world)))).
Proof.
  split.
  - intros us. apply record_all_counter_ok, initial_counter_ok.
  - intros U L T spam_model clock envelopes.
    destruct (deliver_all_stats U L T spam_model clock envelopes initial_world)
      as (us & _ & ->).
    apply record_all_counter_ok, initial_counter_ok.
Qed.

Lemma str_eqb_sym (a b : str) : str_eqb a b = str_eqb b a.
Proof.
  destruct (str_eqb_spec a b) as [E|H]; destruct (str_eqb_spec b a) as [E'|H'];
    congruence.
Qed.

Lemma counter_get_record_all (d : str) (us : list Update) (st : Stats) :
  counter_get d (domains (record_all us st)) =
  (counter_get d (domains st)
   + match d with [] => 0 | _ :: _ => count_domain d us end)%Z.
Proof.
  revert st. induction us as [|u us IH]; intros st.
  - cbn. destruct d; unfold count_domain; cbn; lia.
  - change (record_all (u :: us) st) with (record_all us (apply_update st u)).
    rewrite IH. unfold apply_update, record_event, count_domain.
    cbn [domains filter].
    destruct (u_domain u) as [[|c k]|].
    + destruct d as [|x d]; [lia|]. cbn. lia.
    + rewrite counter_get_incr, (str_eqb_sym (c :: k) d).
      destruct d as [|x d]; [reflexivity|].
      destruct (str_eqb (x :: d) (c :: k)); cbn [List.length]; lia.
    + destruct d; lia.
Qed.

(** X6: looking a domain up gives the number of processed deliveries that
    counted it, and 0 for a domain never counted, the empty one included. *)
Theorem domain_lookup_counts (us : list Update) (d : str) :
  counter_get d (domains (record_all us initial_stats)) =
  match d with [] => 0%Z | _ :: _ => count_domain d us end.
Proof.
  rewrite counter_get_record_all. cbn [initial_stats domains counter_get]. lia.
Qed.

Lemma counter_get_in (k : str) (c : Z) (d : Counter) :
  NoDup (map fst d) -> In (k, c) d -> counter_get k d = c.
Proof.
  induction d as [|[k' c'] d IH]; intros Hnd Hin; [contradiction|].
  cbn [map fst] in Hnd. apply NoDup_cons_iff in Hnd as [Hk' Hnd].
  cbn [counter_get]. destruct Hin as [[= -> ->]|Hin].
  - now destruct (str_eqb_spec k k).
  - destruct (str_eqb_spec k k') as [->|_]; [|now apply IH].
    exfalso. apply Hk'. apply (in_map fst) in Hin. exact Hin.
Qed.

Lemma most_common_sub (n : nat) (d : Counter) (x : str * Z) :
  In x (most_common n d) -> In x d.
Proof.
  intros H. apply (Permutation_in x (sort_desc_perm d)).
  unfold most_common in H. rewrite <- (firstn_skipn n (sort_desc d)).
  apply in_or_app. now left.
Qed.

Lemma most_common_keys_nodup (n : nat) (d : Counter) :
  NoDup (map fst d) -> NoDup (map fst (most_common n d)).
Proof.
  intros H. unfold most_common.
  assert (Hs : NoDup (map fst (sort_desc d))).
  { eapply Permutation_NoDup; [|exact H].
    apply Permutation_map. symmetry. apply sort_desc_perm. }
  rewrite <- (firstn_skipn n (sort_desc d)), map_app in Hs.
  now apply NoDup_app_remove_r in Hs.
Qed.

(** X7: the top-domains list names no domain twice, and each entry
    carries that domain's current count, which is the number of processed
    deliveries that counted it. *)
Theorem top_domains_exact (us : list Update) :
  NoDup (map fst (s_top_domains (summary_stats (record_all us initial_stats))))
  /\ forall k c,
       In (k, c) (s_top_domains (summary_stats (record_all us initial_stats))) ->
       counter_get k (domains (record_all us initial_stats)) = c
       /\ c = count_domain k us
       /\ (1 <= c)%Z.
Proof.
  cbn [summary_stats s_top_domains].
  destruct (@record_all_counter_ok us initial_stats initial_counter_ok) as [Hnd Hall].
  split; [now apply most_common_keys_nodup|].
  intros k c Hin. apply most_common_sub in Hin.
  pose proof (@counter_get_in _ _ _ Hnd Hin) as Hget.
  rewrite Forall_forall in Hall. destruct (Hall _ Hin) as [Hk Hc]. cbn [fst snd] in *.
  repeat split; [exact Hget| |exact Hc].
  rewrite <- Hget, counter_get_record_all. cbn [initial_stats domains counter_get].
  destruct k; [contradiction|lia].
Qed.

(** X8: the history holds min(200, n) events after n processed
    deliveries; in the running application its length is
    min(200, total_emails). *)
Theorem history_length :
  (forall us,
     List.length (events (record_all us initial_stats)) = Nat.min 200 (List.length us))
  /\ (forall U L T spam_model clock envelopes,
        Z.of_nat
          (List.length
             (events (stats (deliver_all U L T spam_model clock envelopes initial_world))))
        = Z.min 200
            (total_emails
               (stats (deliver_all U L T spam_model clock envelopes initial_world)))).
Proof.
  assert (H : forall us,
             List.length (events (record_all us initial_stats))
             = Nat.min 200 (List.length us)).
  { intros us. rewrite events_from_initial, length_firstn, length_rev, length_map.
    reflexivity. }
  split; [exact H|].
  intros U L T spam_model clock envelopes.
  destruct (deliver_all_stats U L T spam_model clock envelopes initial_world)
    as (us & _ & ->).
  change (stats initial_world) with initial_stats. rewrite H.
  destruct (totals_record_all us initial_stats) as (-> & _).
  cbn [initial_stats total_emails]. lia.
Qed.

Section DeliveryFacts.

Variable U : UnicodeDB.
Variable L : EmailLib.
Variable T : Transport.
Variable spam_model : SpamModel.
Variable utcnow_isoformat : nat -> str.

(** One call of the handler either counts the delivery or logs it. *)
Lemma deliver_step (w : World) (envelope : Envelope) :
  (total_emails (stats (deliver U L T spam_model utcnow_isoformat w envelope))
     = (total_emails (stats w) + 1)%Z
   /\ ticks (deliver U L T spam_model utcnow_isoformat w envelope) = Datatypes.S (ticks w)
   /\ stdout (deliver U L T spam_model utcnow_isoformat w envelope) = stdout w
   /\ smtp_status (stats (deliver U L T spam_model utcnow_isoformat w envelope))
        = smtp_status (stats w)
   /\ exists u, coherent u
        /\ stats (deliver U L T spam_model utcnow_isoformat w envelope)
           = apply_update (stats w) u)
  \/ (stats (deliver U L T spam_model utcnow_isoformat w envelope) = stats w
      /\ manager (deliver U L T spam_model utcnow_isoformat w envelope) = manager w
      /\ ticks (deliver U L T spam_model utcnow_isoformat w envelope) = ticks w
      /\ wire (deliver U L T spam_model utcnow_isoformat w envelope) = wire w
      /\ exists line,
           stdout (deliver U L T spam_model utcnow_isoformat w envelope)
           = stdout w ++ [line]).
Proof.
  assert (Hcount : forall w' r,
             process_email U L T spam_model utcnow_isoformat (mail_from envelope)
               (rcpt_tos envelope) (env_content envelope) w = (w', r) ->
             (forall e, r <> Failed e) ->
             total_emails (stats w') = (total_emails (stats w) + 1)%Z
             /\ ticks w' = Datatypes.S (ticks w)
             /\ stdout w' = stdout w
             /\ smtp_status (stats w') = smtp_status (stats w)
             /\ exists u, coherent u /\ stats w' = apply_update (stats w) u).
  { intros w' r Hp Hr.
    apply process_email_done in Hp
      as (parsed & verdict & _ & _ & Hs & _ & _ & _ & Ht & Ho); [|exact Hr].
    rewrite Hs, Ht, Ho. repeat split.
    exists {| u_spam := is_spam verdict;
              u_domain := sender_domain_of U (mail_from envelope) (from_ parsed);
              u_event := event_of utcnow_isoformat (mail_from envelope)
                           (rcpt_tos envelope) parsed verdict w |}.
    split; reflexivity. }
  unfold deliver, handle_DATA, smtp_callback.
  destruct (process_email U L T spam_model utcnow_isoformat _ _ _ w) as [w' r] eqn:Hp.
  destruct r as [u|e|b]; cbn [fst].
  - left. apply (Hcount w' (Returned u) eq_refl). discriminate.
  - right. apply process_email_failed in Hp as [-> _].
    cbn [print stats manager ticks wire stdout]. repeat split. eexists. reflexivity.
  - left. apply (Hcount w' (Cancelled b) eq_refl). discriminate.
Qed.

Lemma deliver_all_cons (envelope : Envelope) (envelopes : list Envelope) (w : World) :
  deliver_all U L T spam_model utcnow_isoformat (envelope :: envelopes) w =
  deliver_all U L T spam_model utcnow_isoformat envelopes
    (deliver U L T spam_model utcnow_isoformat w envelope).
Proof. reflexivity. Qed.

Lemma deliver_all_coherent (envelopes : list Envelope) (w : World) :
  exists us, Forall coherent us
    /\ stats (deliver_all U L T spam_model utcnow_isoformat envelopes w)
       = record_all us (stats w).
Proof.
  revert w. induction envelopes as [|env envs IH]; intros w.
  - exists []. split; [constructor|reflexivity].
  - rewrite deliver_all_cons.
    destruct (IH (deliver U L T spam_model utcnow_isoformat w env)) as (us & Hc & ->).
    destruct (deliver_step w env) as [(_ & _ & _ & _ & u & Hu & ->)|(-> & _)].
    + exists (u :: us). split; [now constructor|reflexivity].
    + exists us. now split.
Qed.


End DeliveryFacts.

Lemma filter_spam_coherent (us : list Update) :
  Forall coherent us ->
  List.length (filter ev_is_spam (map u_event us)) = List.length (filter u_spam us).
Proof.
  induction 1 as [|u us Hu _ IH]; [reflexivity|].
  cbn [map filter]. rewrite Hu. destruct (u_spam u); cbn [List.length]; now rewrite IH.
Qed.

Lemma filter_firstn_le {A : Type} (f : A -> bool) (n : nat) (l : list A) :
  (List.length (filter f (firstn n l)) <= List.length (filter f l))%nat.
Proof.
  rewrite <- (firstn_skipn n l) at 2. rewrite filter_app, length_app. lia.
Qed.

(** X10: in the running application the spam events still in the history
    never outnumber [spam_count], and they are all of them as long as
    nothing has been evicted (at most 200 processed deliveries). *)
Theorem spam_history_agrees (U : UnicodeDB) (L : EmailLib) (T : Transport)
    (spam_model : SpamModel) (clock : nat -> str) (envelopes : list Envelope) :
  (spam_events
     (events (stats (deliver_all U L T spam_model clock envelopes initial_world)))
   <= spam_count (stats (deliver_all U L T spam_model clock envelopes initial_world)))%Z
  /\ ((total_emails (stats (deliver_all U L T spam_model clock envelopes initial_world))
       <= 200)%Z ->
      spam_events
        (events (stats (deliver_all U L T spam_model clock envelopes initial_world)))
      = spam_count (stats (deliver_all U L T spam_model clock envelopes initial_world))).
Proof.
  destruct (deliver_all_coherent U L T spam_model clock envelopes initial_world)
    as (us & Hc & ->).
  change (stats initial_world) with initial_stats.
  rewrite events_from_initial.
  destruct (totals_record_all us initial_stats) as (-> & -> & _).
  cbn [initial_stats total_emails spam_count]. unfold spam_events, count_spam.
  pose proof (filter_spam_coherent Hc) as E.
  assert (Hrev : List.length (filter ev_is_spam (rev (map u_event us)))
                 = List.length (filter u_spam us)).
  { now rewrite filter_rev, length_rev. }
  split.
  - pose proof (filter_firstn_le ev_is_spam EVENTS_MAXLEN (rev (map u_event us))). lia.
  - intros Hle. rewrite firstn_all2; [lia|].
    rewrite length_rev, length_map. unfold EVENTS_MAXLEN. lia.
Qed.

(** X10 on one sample delivery. *)
Lemma spam_history_agrees_witness :
  spam_events
    (events (stats (deliver_all plain_db plain_text_lib second_broken
                      {| pipeline := None |} sample_clock [sale_envelope] initial_world)))
  = spam_count
      (stats (deliver_all plain_db plain_text_lib second_broken
                {| pipeline := None |} sample_clock [sale_envelope] initial_world)).
Proof.
  apply (spam_history_agrees plain_db plain_text_lib second_broken
           {| pipeline := None |} sample_clock [sale_envelope]).
  vm_compute. discriminate.
Defined.

(* ================================================================== *)
(** * More on the connection manager *)

(** Either no send is cancelled, or there is a first one that is. *)
Lemma uncancelled_or_first (T : Transport) (data : str) (l : list Conn) :
  uncancelled T data l = true
  \/ exists l1 c l2 b,
       l = l1 ++ c :: l2
       /\ uncancelled T data l1 = true
       /\ send_text T c data = Cancelled b.
Proof.
  induction l as [|x l IH]; [now left|].
  destruct (send_text T x data) as [u|e|b] eqn:Hx.
  - destruct IH as [H|(l1 & c & l2 & b & -> & H1 & Hc)].
    + left. cbn [uncancelled forallb]. now rewrite Hx.
    + right. exists (x :: l1), c, l2, b. repeat split; [|exact Hc].
      cbn [uncancelled forallb]. now rewrite Hx.
  - destruct IH as [H|(l1 & c & l2 & b & -> & H1 & Hc)].
    + left. cbn [uncancelled forallb]. now rewrite Hx.
    + right. exists (x :: l1), c, l2, b. repeat split; [|exact Hc].
      cbn [uncancelled forallb]. now rewrite Hx.
  - right. now exists [], x, l, b.
Qed.

(** A broadcast that raised nothing had no send cancelled. *)
Lemma broadcast_returned (T : Transport) (self : ConnectionManager) (message : Message) :
  b_raised (broadcast T self message) = None ->
  uncancelled T (json_dumps T message) (active self) = true.
Proof.
  intros H.
  destruct (uncancelled_or_first T (json_dumps T message) (active self))
    as [Hu|(l1 & c & l2 & b & E & H1 & Hc)]; [exact Hu|].
  unfold broadcast in H. rewrite E in H.
  destruct (send_loop_cancelled T (json_dumps T message) l1 l2 c H1 Hc) as (rs & Hs).
  rewrite Hs in H. discriminate H.
Qed.

Lemma broadcast_log (T : Transport) (self : ConnectionManager) (message : Message) :
  b_raised (broadcast T self message) = None ->
  b_log (broadcast T self message) =
  map (fun c => {| to_conn := c;
                   payload := json_dumps T message;
                   delivered := reachable T (json_dumps T message) c |})
    (active self).
Proof. intros H. now apply broadcast_uncancelled, broadcast_returned. Qed.

Lemma broadcast_active (T : Transport) (self : ConnectionManager) (message : Message) :
  b_raised (broadcast T self message) = None ->
  active (b_manager (broadcast T self message)) =
  filter (reachable T (json_dumps T message)) (active self).
Proof. intros H. now apply broadcast_uncancelled, broadcast_returned. Qed.

(** Every attempt of a broadcast carries the serialised message, to an
    observer of the registry, and the attempts follow the registry. *)
Lemma broadcast_log_prefix (T : Transport) (self : ConnectionManager)
    (message : Message) :
  Forall (fun a => payload a = json_dumps T message) (b_log (broadcast T self message))
  /\ exists rest, active self = map to_conn (b_log (broadcast T self message)) ++ rest.
Proof.
  destruct (uncancelled_or_first T (json_dumps T message) (active self))
    as [Hu|(l1 & c & l2 & b & E & H1 & Hc)].
  - destruct (broadcast_uncancelled T self message Hu) as (-> & _). split.
    + apply Forall_map, Forall_forall. now intros.
    + exists []. rewrite map_map, app_nil_r. cbn [to_conn]. now rewrite map_id.
  - unfold broadcast. rewrite E.
    destruct (send_loop_cancelled T (json_dumps T message) l1 l2 c H1 Hc) as (rs & ->).
    cbn [b_log]. split.
    + apply Forall_map, Forall_forall. now intros.
    + exists l2. rewrite map_map. cbn [to_conn]. rewrite map_id, <- app_assoc.
      reflexivity.
Qed.

Lemma remove_first_last (ws : Conn) (l : list Conn) :
  mem_conn ws l = false -> remove_first ws (l ++ [ws]) = l.
Proof.
  induction l as [|y l IH]; cbn [mem_conn existsb app remove_first].
  - now rewrite Nat.eqb_refl.
  - fold (mem_conn ws l). destruct (ws =? y)%nat; [discriminate|].
    cbn [orb]. intros H. now rewrite IH.
Qed.

Lemma mem_conn_in (ws : Conn) (l : list Conn) : mem_conn ws l = true <-> In ws l.
Proof.
  unfold mem_conn. rewrite existsb_exists. split.
  - intros (x & Hx & E). apply Nat.eqb_eq in E. now subst.
  - intros H. exists ws. split; [exact H|apply Nat.eqb_refl].
Qed.

Lemma remove_first_nodup (ws : Conn) (l : list Conn) :
  NoDup l -> NoDup (remove_first ws l) /\ ~ In ws (remove_first ws l).
Proof.
  induction 1 as [|y l Hy Hl IH]; cbn [remove_first].
  - split; [constructor|intros []].
  - destruct (Nat.eqb_spec ws y) as [->|Hne]; [now split|].
    destruct IH as [IH1 IH2]. split.
    + constructor; [|exact IH1]. intros Hin. apply Hy.
      clear -Hin. induction l as [|z l IHl]; [contradiction|].
      cbn [remove_first] in Hin. destruct (ws =? z)%nat; [now right|].
      destruct Hin as [<-|Hin]; [now left|right; now apply IHl].
    + intros [E|Hin]; [now apply Hne|now apply IH2].
Qed.

(** X12: [disconnect] leaves the manager as it is when the websocket is
    not registered, undoes a [connect] of a websocket that was not
    registered, and, in a registry without duplicates, leaves the websocket
    unregistered; [connect] of a new websocket and [disconnect] both keep the
    registry free of duplicates. *)
Theorem registry_round_trip (self : ConnectionManager) (ws : Conn) :
  (mem_conn ws (active self) = false -> disconnect self ws = self)
  /\ (mem_conn ws (active self) = false -> disconnect (connect self ws) ws = self)
  /\ (NoDup (active self) ->
      NoDup (active (disconnect self ws)) /\ ~ In ws (active (disconnect self ws)))
  /\ (NoDup (active self) -> mem_conn ws (active self) = false ->
      NoDup (active (connect self ws))).
Proof.
  repeat split.
  - intros H. unfold disconnect. now rewrite H.
  - intros H. unfold disconnect, connect. cbn [active].
    assert (Hm : mem_conn ws (active self ++ [ws]) = true).
    { apply mem_conn_in, in_or_app. right. now left. }
    rewrite Hm, remove_first_last by exact H. now destruct self.
  - rewrite active_disconnect. now apply remove_first_nodup.
  - rewrite active_disconnect. now apply remove_first_nodup.
  - intros Hnd H. cbn [connect active]. apply NoDup_app; [exact Hnd|repeat constructor; intros []|].
    intros a Ha [<-|[]]. apply mem_conn_in in Ha. congruence.
Qed.

(** X12 on a registry of three and a fourth websocket. *)
Lemma registry_round_trip_witness :
  disconnect (connect {| active := [1; 2; 3]%nat |} 4%nat) 4%nat
  = {| active := [1; 2; 3]%nat |}.
Proof.
  destruct (registry_round_trip {| active := [1; 2; 3]%nat |} 4%nat) as (_ & H & _).
  apply H. reflexivity.
Defined.

Section FreshSnapshot.

Variable U : UnicodeDB.
Variable L : EmailLib.
Variable T : Transport.
Variable spam_model : SpamModel.
Variable utcnow_isoformat : nat -> str.

(** X13: a delivery that [process_email] completes sends one message to
    every observer registered before it, all with the same payload: the
    event now at the head of the history together with the snapshot taken
    after the counters were updated, so that the snapshot's total is the
    previous total plus one. *)
Theorem event_broadcast_fresh (envelope_from : str) (rcpts : list str)
    (message_bytes : bytes) (w w' : World) :
  process_email U L T spam_model utcnow_isoformat envelope_from rcpts message_bytes w
    = (w', Returned tt) ->
  exists parsed verdict,
    hd_error (events (stats w'))
      = Some (event_of utcnow_isoformat envelope_from rcpts parsed verdict w)
    /\ s_total_emails (summary_stats (stats w')) = (total_emails (stats w) + 1)%Z
    /\ wire w' =
         wire w
         ++ map (fun c =>
                   {| to_conn := c;
                      payload :=
                        json_dumps T
                          (EmailEventMsg
                             (event_of utcnow_isoformat envelope_from rcpts parsed verdict w)
                             (summary_stats (stats w')));
                      delivered :=
                        reachable T
                          (json_dumps T
                             (EmailEventMsg
                                (event_of utcnow_isoformat envelope_from rcpts parsed
                                   verdict w)
                                (summary_stats (stats w'))))
                          c |})
             (active (manager w)).
Proof.
  intros H. apply process_email_done in H
    as (parsed & verdict & _ & _ & Hs & _ & Hw & Hr & _); [|discriminate].
  exists parsed, verdict. rewrite Hw, broadcast_log.
  - rewrite Hs. repeat split.
    unfold record_event, appendleft. cbn [events].
    now destruct (List.length (events (stats w)) <? EVENTS_MAXLEN)%nat.
  - now destruct (b_raised _).
Qed.

End FreshSnapshot.

(** X13 on the sample delivery to three observers. *)
Lemma event_broadcast_fresh_witness :
  exists w',
    process_email plain_db plain_text_lib second_broken {| pipeline := None |}
      sample_clock [] [lit "me@home.test"] sale_message three_observers
      = (w', Returned tt)
    /\ map to_conn (wire w') = [1; 2; 3]%nat.
Proof.
  eexists. split; [reflexivity|].
  destruct (@event_broadcast_fresh plain_db plain_text_lib second_broken
              {| pipeline := None |} sample_clock [] [lit "me@home.test"] sale_message
              three_observers _ eq_refl) as (parsed & verdict & _ & _ & Hw).
  rewrite Hw. reflexivity.
Defined.

(* ================================================================== *)
(** * The listener status *)

Lemma broadcast_cancelled (T : Transport) (self : ConnectionManager) (message : Message)
    (l1 l2 : list Conn) (c : Conn) (b : base_exn) :
  active self = l1 ++ c :: l2 ->
  uncancelled T (json_dumps T message) l1 = true ->
  send_text T c (json_dumps T message) = Cancelled b ->
  map to_conn (b_log (broadcast T self message)) = l1 ++ [c]
  /\ b_manager (broadcast T self message) = self
  /\ b_raised (broadcast T self message) = Some b.
Proof.
  intros Hl H1 Hc. unfold broadcast. rewrite Hl.
  destruct (send_loop_cancelled T (json_dumps T message) l1 l2 c H1 Hc) as (rs & ->).
  cbn [b_log b_manager b_raised]. repeat split.
  rewrite map_map. cbn [to_conn]. apply map_id.
Qed.

(** What [announce] does: the status is stored whatever happens next, the
    attempts all carry the snapshot with the new status, and the line is
    printed exactly when the broadcast was not cancelled. *)
Lemma announce_world (T : Transport) (status : SmtpStatus) (line : string) (w : World) :
  stats (fst (announce T status line w)) = with_status status (stats w)
  /\ ticks (fst (announce T status line w)) = ticks w
  /\ (forall e, snd (announce T status line w) <> Failed e)
  /\ Forall (fun a => payload a = status_data T status w)
       (skipn (List.length (wire w)) (wire (fst (announce T status line w))))
  /\ (uncancelled T (status_data T status w) (active (manager w)) = true ->
      snd (announce T status line w) = Returned tt
      /\ map to_conn (skipn (List.length (wire w)) (wire (fst (announce T status line w))))
         = active (manager w)
      /\ active (manager (fst (announce T status line w)))
         = filter (reachable T (status_data T status w)) (active (manager w))
      /\ stdout (fst (announce T status line w)) = stdout w ++ [line])
  /\ (forall l1 c l2 b,
        active (manager w) = l1 ++ c :: l2 ->
        uncancelled T (status_data T status w) l1 = true ->
        send_text T c (status_data T status w) = Cancelled b ->
        snd (announce T status line w) = Cancelled b
        /\ map to_conn (skipn (List.length (wire w)) (wire (fst (announce T status line w))))
           = l1 ++ [c]
        /\ manager (fst (announce T status line w)) = manager w
        /\ stdout (fst (announce T status line w)) = stdout w).
Proof.
  unfold announce, status_data.
  set (m := StatusMsg (summary_stats (with_status status (stats w)))).
  split; [|split; [|split; [|split; [|split]]]].
  - now destruct (b_raised _).
  - now destruct (b_raised _).
  - intros e. now destruct (b_raised _).
  - assert (E : skipn (List.length (wire w))
                  (wire (fst match b_raised (broadcast T (manager w) m) with
                             | None =>
                                 (print line
                                    {| stats := with_status status (stats w);
                                       manager := b_manager (broadcast T (manager w) m);
                                       ticks := ticks w;
                                       wire := wire w ++ b_log (broadcast T (manager w) m);
                                       stdout := stdout w |}, Returned tt)
                             | Some b =>
                                 ({| stats := with_status status (stats w);
                                     manager := b_manager (broadcast T (manager w) m);
                                     ticks := ticks w;
                                     wire := wire w ++ b_log (broadcast T (manager w) m);
                                     stdout := stdout w |}, Cancelled b)
                             end))
                = b_log (broadcast T (manager w) m)).
    { destruct (b_raised _); cbn [fst wire print];
        now rewrite skipn_app, Nat.sub_diag, skipn_all. }
    rewrite E. apply (broadcast_log_prefix T (manager w) m).
  - intros H. destruct (broadcast_uncancelled T (manager w) m H) as (Hl & Ha & ->).
    cbn [fst snd wire manager stdout print].
    rewrite skipn_app, Nat.sub_diag, skipn_all, Hl, Ha. cbn [List.app skipn].
    repeat split. rewrite map_map. cbn [to_conn]. apply map_id.
  - intros l1 c l2 b Hl H1 Hc.
    destruct (@broadcast_cancelled T (manager w) m l1 l2 c b Hl H1 Hc) as (Hlog & Hm & ->).
    cbn [fst snd wire manager stdout].
    rewrite skipn_app, Nat.sub_diag, skipn_all. cbn [List.app skipn].
    now repeat split.
Qed.

(** Deliveries leave the listener status alone. *)
Lemma deliver_all_status (U : UnicodeDB) (L : EmailLib) (T : Transport)
    (spam_model : SpamModel) (clock : nat -> str) (envelopes : list Envelope) (w : World) :
  smtp_status (stats (deliver_all U L T spam_model clock envelopes w))
  = smtp_status (stats w).
Proof.
  revert w. induction envelopes as [|env envs IH]; intros w; [reflexivity|].
  rewrite deliver_all_cons, IH.
  destruct (deliver_step U L T spam_model clock w env)
    as [(_ & _ & _ & Hs & _)|(Hs & _)]; now rewrite Hs.
Qed.

Lemma startup_event_started (C : Controller) (T : Transport) (app : App) :
  controller_start C = Ok tt ->
  startup_event C T app =
  ({| app_world :=
        fst (announce T {| listening := true; host := SMTP_HOST; port := SMTP_PORT |}
               "SMTP controller started on 0.0.0.0:1025" (app_world app));
      smtp_controller := true |},
   snd (announce T {| listening := true; host := SMTP_HOST; port := SMTP_PORT |}
          "SMTP controller started on 0.0.0.0:1025" (app_world app))).
Proof.
  intros H. unfold startup_event. rewrite H.
  change ("SMTP controller started on " ++ SMTP_HOST ++ ":"
          ++ NilZero.string_of_int (Z.to_int SMTP_PORT))%string
    with "SMTP controller started on 0.0.0.0:1025"%string.
  now destruct (announce T _ _ (app_world app)).
Qed.

Lemma shutdown_event_stopped (C : Controller) (T : Transport) (app : App) :
  smtp_controller app = false \/ controller_stop C = Ok tt ->
  shutdown_event C T app =
  ({| app_world :=
        fst (announce T
               {| listening := false;
                  host := host (smtp_status (stats (app_world app)));
                  port := port (smtp_status (stats (app_world app))) |}
               "SMTP controller stopped" (app_world app));
      smtp_controller := smtp_controller app |},
   snd (announce T
          {| listening := false;
             host := host (smtp_status (stats (app_world app)));
             port := port (smtp_status (stats (app_world app))) |}
          "SMTP controller stopped" (app_world app))).
Proof.
  intros H. unfold shutdown_event.
  assert (E : (if smtp_controller app then controller_stop C else Ok tt) = Ok tt).
  { destruct H as [->| ->]; [reflexivity|now destruct (smtp_controller app)]. }
  rewrite E. now destruct (announce T _ _ (app_world app)).
Qed.

(** X14: when the controller fails to start, [startup_event] raises its
    exception with the world untouched, so that nothing ever reports
    listening.  When it starts, the status listening on 0.0.0.0:1025 is
    stored, the counters, the domains and the history are left alone, every
    status snapshot sent already says listening, and the status then stays
    through any deliveries; no instance of [Exception] is raised.  When no
    send is cancelled the event returns, every observer was sent the
    snapshot and one line is printed; when a send is cancelled the event
    raises that cancellation, the observers after it were not attempted and
    no line is printed. *)
Theorem startup_reports_listening (C : Controller) (T : Transport) (app : App) :
  (forall e, controller_start C = Raise e ->
     startup_event C T app
       = ({| app_world := app_world app; smtp_controller := true |}, Failed e))
  /\ (controller_start C = Ok tt ->
      smtp_controller (fst (startup_event C T app)) = true
      /\ smtp_status (stats (app_world (fst (startup_event C T app))))
           = {| listening := true; host := "0.0.0.0"; port := 1025 |}
      /\ total_emails (stats (app_world (fst (startup_event C T app))))
           = total_emails (stats (app_world app))
      /\ spam_count (stats (app_world (fst (startup_event C T app))))
           = spam_count (stats (app_world app))
      /\ domains (stats (app_world (fst (startup_event C T app))))
           = domains (stats (app_world app))
      /\ events (stats (app_world (fst (startup_event C T app))))
           = events (stats (app_world app))
      /\ Forall
           (fun a => exists summary,
                payload a = json_dumps T (StatusMsg summary)
                /\ listening (s_smtp_status summary) = true)
           (skipn (List.length (wire (app_world app)))
              (wire (app_world (fst (startup_event C T app)))))
      /\ (forall e, snd (startup_event C T app) <> Failed e)
      /\ (uncancelled T
            (status_data T {| listening := true; host := "0.0.0.0"; port := 1025 |}
               (app_world app))
            (active (manager (app_world app))) = true ->
          snd (startup_event C T app) = Returned tt
          /\ map to_conn
               (skipn (List.length (wire (app_world app)))
                  (wire (app_world (fst (startup_event C T app)))))
             = active (manager (app_world app))
          /\ stdout (app_world (fst (startup_event C T app)))
             = stdout (app_world app) ++ ["SMTP controller started on 0.0.0.0:1025"%string])
      /\ (forall l1 c l2 b,
            active (manager (app_world app)) = l1 ++ c :: l2 ->
            uncancelled T
              (status_data T {| listening := true; host := "0.0.0.0"; port := 1025 |}
                 (app_world app)) l1 = true ->
            send_text T c
              (status_data T {| listening := true; host := "0.0.0.0"; port := 1025 |}
                 (app_world app)) = Cancelled b ->
            snd (startup_event C T app) = Cancelled b
            /\ map to_conn
                 (skipn (List.length (wire (app_world app)))
                    (wire (app_world (fst (startup_event C T app)))))
               = l1 ++ [c]
            /\ stdout (app_world (fst (startup_event C T app))) = stdout (app_world app))
      /\ forall U L spam_model clock envelopes,
           smtp_status
             (stats (deliver_all U L T spam_model clock envelopes
                       (app_world (fst (startup_event C T app)))))
           = {| listening := true; host := "0.0.0.0"; port := 1025 |}).
Proof.
  split.
  - intros e H. unfold startup_event. now rewrite H.
  - intros H. rewrite (startup_event_started C T app H).
    cbn [fst snd app_world smtp_controller].
    destruct (announce_world T {| listening := true; host := SMTP_HOST; port := SMTP_PORT |}
                "SMTP controller started on 0.0.0.0:1025" (app_world app))
      as (Hs & _ & Hf & Hp & Hu & Hc).
    rewrite Hs.
    split; [reflexivity|]. split; [reflexivity|]. split; [reflexivity|].
    split; [reflexivity|]. split; [reflexivity|]. split; [reflexivity|].
    split; [|split; [exact Hf|split; [|split]]].
    + eapply Forall_impl; [|exact Hp]. intros a Ha. cbn beta in Ha.
      eexists. split; [exact Ha|reflexivity].
    + intros Hun. destruct (Hu Hun) as (Hr & Hl & _ & Ho). now repeat split.
    + intros l1 c l2 b Hl H1 Hcc.
      destruct (Hc l1 c l2 b Hl H1 Hcc) as (Hr & Hlog & _ & Ho). now repeat split.
    + intros U L spam_model clock envelopes.
      rewrite deliver_all_status, Hs. reflexivity.
Qed.

(** X14 on a controller that starts, with three observers. *)
Lemma startup_reports_listening_witness :
  smtp_status
    (stats (app_world
              (fst (startup_event good_controller second_broken
                      {| app_world := three_observers; smtp_controller := false |}))))
  = {| listening := true; host := "0.0.0.0"; port := 1025 |}
  /\ snd (startup_event good_controller second_broken
            {| app_world := three_observers; smtp_controller := false |})
     = Returned tt.
Proof.
  destruct (startup_reports_listening good_controller second_broken
              {| app_world := three_observers; smtp_controller := false |})
    as (_ & H).
  destruct (H eq_refl) as (_ & Hs & _ & _ & _ & _ & _ & _ & Hu & _).
  split; [exact Hs|]. apply Hu. reflexivity.
Defined.

(** With three observers and the send to the second one cancelled, the
    start raises the cancellation: the third observer is not told and no
    line is printed, though the status is stored. *)
Lemma startup_cancelled :
  snd (startup_event good_controller second_cancelled
         {| app_world := three_observers; smtp_controller := false |})
    = Cancelled (BaseExn "CancelledError" EmptyString)
  /\ map to_conn
       (wire (app_world
                (fst (startup_event good_controller second_cancelled
                        {| app_world := three_observers; smtp_controller := false |}))))
     = [1; 2]%nat
  /\ stdout (app_world
               (fst (startup_event good_controller second_cancelled
                       {| app_world := three_observers; smtp_controller := false |})))
     = []
  /\ listening
       (smtp_status
          (stats (app_world
                    (fst (startup_event good_controller second_cancelled
                            {| app_world := three_observers;
                               smtp_controller := false |})))))
     = true.
Proof. repeat split. Qed.

(** X15: [shutdown_event] stops the controller only when one was created;
    when that raises, the exception is raised and nothing changes; otherwise
    the status says not listening with host and port kept, and the counters,
    the domains and the history are left alone; no instance of [Exception]
    is raised; when no send is cancelled the event returns and one line is
    printed, and when a send is cancelled the event raises that cancellation
    and no line is printed.  After a start and a stop the status is not
    listening on 0.0.0.0:1025. *)
Theorem shutdown_reports_stopped (C : Controller) (T : Transport) (app : App) :
  (forall e, smtp_controller app = true -> controller_stop C = Raise e ->
     shutdown_event C T app = (app, Failed e))
  /\ (smtp_controller app = false \/ controller_stop C = Ok tt ->
      smtp_status (stats (app_world (fst (shutdown_event C T app))))
           = {| listening := false;
                host := host (smtp_status (stats (app_world app)));
                port := port (smtp_status (stats (app_world app))) |}
      /\ total_emails (stats (app_world (fst (shutdown_event C T app))))
           = total_emails (stats (app_world app))
      /\ spam_count (stats (app_world (fst (shutdown_event C T app))))
           = spam_count (stats (app_world app))
      /\ domains (stats (app_world (fst (shutdown_event C T app))))
           = domains (stats (app_world app))
      /\ events (stats (app_world (fst (shutdown_event C T app))))
           = events (stats (app_world app))
      /\ (forall e, snd (shutdown_event C T app) <> Failed e)
      /\ (uncancelled T
            (status_data T
               {| listening := false;
                  host := host (smtp_status (stats (app_world app)));
                  port := port (smtp_status (stats (app_world app))) |}
               (app_world app))
            (active (manager (app_world app))) = true ->
          snd (shutdown_event C T app) = Returned tt
          /\ stdout (app_world (fst (shutdown_event C T app)))
             = stdout (app_world app) ++ ["SMTP controller stopped"%string])
      /\ (forall l1 c l2 b,
            active (manager (app_world app)) = l1 ++ c :: l2 ->
            uncancelled T
              (status_data T
                 {| listening := false;
                    host := host (smtp_status (stats (app_world app)));
                    port := port (smtp_status (stats (app_world app))) |}
                 (app_world app)) l1 = true ->
            send_text T c
              (status_data T
                 {| listening := false;
                    host := host (smtp_status (stats (app_world app)));
                    port := port (smtp_status (stats (app_world app))) |}
                 (app_world app)) = Cancelled b ->
            snd (shutdown_event C T app) = Cancelled b
            /\ stdout (app_world (fst (shutdown_event C T app))) = stdout (app_world app)))
  /\ (controller_start C = Ok tt -> controller_stop C = Ok tt ->
      smtp_status
        (stats (app_world (fst (shutdown_event C T (fst (startup_event C T app))))))
      = {| listening := false; host := "0.0.0.0"; port := 1025 |}).
Proof.
  split; [|split].
  - intros e Hc He. unfold shutdown_event. now rewrite Hc, He.
  - intros H. rewrite (shutdown_event_stopped C T app H).
    cbn [fst snd app_world].
    match goal with
    | |- context [announce T ?st ?ln (app_world app)] =>
        destruct (announce_world T st ln (app_world app))
          as (Hs & _ & Hf & _ & Hu & Hc)
    end.
    rewrite Hs.
    split; [reflexivity|]. split; [reflexivity|]. split; [reflexivity|].
    split; [reflexivity|]. split; [reflexivity|].
    split; [exact Hf|split].
    + intros Hun. destruct (Hu Hun) as (Hr & _ & _ & Ho). now split.
    + intros l1 c l2 b Hl H1 Hcc.
      destruct (Hc l1 c l2 b Hl H1 Hcc) as (Hr & _ & _ & Ho). now split.
  - intros Hstart Hstop.
    rewrite (shutdown_event_stopped C T _ (or_intror Hstop)).
    rewrite (startup_event_started C T app Hstart).
    cbn [fst app_world].
    repeat match goal with
           | |- context [stats (fst (announce T ?st ?ln ?w))] =>
               let H := fresh in
               destruct (announce_world T st ln w) as (H & _); rewrite H; clear H
           end.
    reflexivity.
Qed.

(** X15 on a start followed by a stop. *)
Lemma shutdown_reports_stopped_witness :
  smtp_status
    (stats (app_world
              (fst (shutdown_event good_controller second_broken
                      (fst (startup_event good_controller second_broken initial_app))))))
  = {| listening := false; host := "0.0.0.0"; port := 1025 |}.
Proof.
  destruct (shutdown_reports_stopped good_controller second_broken initial_app)
    as (_ & _ & H).
  apply H; reflexivity.
Defined.

(* ================================================================== *)
(** * The websocket endpoint *)

Lemma disconnect_connect (self : ConnectionManager) (ws : Conn) :
  mem_conn ws (active self) = false -> disconnect (connect self ws) ws = self.
Proof.
  intros H. unfold disconnect, connect. cbn [active].
  assert (Hm : mem_conn ws (active self ++ [ws]) = true).
  { apply mem_conn_in, in_or_app. right. now left. }
  rewrite Hm, remove_first_last by exact H. now destruct self.
Qed.

(** The loop is left as soon as a call of [receive_text] raises. *)
Lemma receive_loop_finds (S : Socket) (ws : Conn) (fuel n k : nat) :
  is_returned (receive_text S ws (n + k)) = false -> (k < fuel)%nat ->
  receive_loop S ws fuel n <> None.
Proof.
  revert n k. induction fuel as [|fuel IH]; intros n k He Hk; [lia|].
  cbn [receive_loop]. destruct (receive_text S ws n) eqn:Hn; [|discriminate..].
  destruct k as [|k].
  - rewrite Nat.add_0_r, Hn in He. discriminate He.
  - apply (IH (Datatypes.S n) k); [|lia].
    now replace (Datatypes.S n + k)%nat with (n + Datatypes.S k)%nat by lia.
Qed.

(** What left the loop was raised by one of the calls of [receive_text]. *)
Lemma receive_loop_exit (S : Socket) (ws : Conn) (fuel n : nat) (x : loop_exit) :
  receive_loop S ws fuel n = Some x ->
  exists k, (k < fuel)%nat
    /\ receive_text S ws (n + k)
       = match x with ExitFailed e => Failed e | ExitCancelled b => Cancelled b end.
Proof.
  revert n. induction fuel as [|fuel IH]; intros n H; [discriminate|].
  cbn [receive_loop] in H. destruct (receive_text S ws n) as [s|e|b] eqn:Hn.
  - destruct (IH _ H) as (k & Hk & E). exists (Datatypes.S k). split; [lia|].
    now replace (n + Datatypes.S k)%nat with (Datatypes.S n + k)%nat by lia.
  - injection H as <-. exists 0%nat. split; [lia|]. now rewrite Nat.add_0_r.
  - injection H as <-. exists 0%nat. split; [lia|]. now rewrite Nat.add_0_r.
Qed.

(** X16: a websocket session.  When [accept] raises, the endpoint raises
    the same and nothing changes.  Otherwise, when the endpoint is left, it
    has raised no instance of [Exception], the statistics are as before and
    the only message sent is the initial snapshot of the current statistics,
    to this websocket.  When it returned, a send or a read had raised an
    instance of [Exception], and a websocket that was not registered before
    is not registered after, the registry being as it was.  When it raised,
    it raised what the send or a read raised, which is no instance of
    [Exception], and the websocket is still registered.  The endpoint is
    left as soon as a call of [receive_text] raises. *)
Theorem websocket_session (S : Socket) (T : Transport) (ws : Conn)
    (fuel : nat) (w : World) :
  (forall e, accept S ws = Failed e ->
     websocket_endpoint S T ws fuel w = Some (w, Failed e))
  /\ (forall b, accept S ws = Cancelled b ->
        websocket_endpoint S T ws fuel w = Some (w, Cancelled b))
  /\ (forall w' r,
        accept S ws = Returned tt ->
        websocket_endpoint S T ws fuel w = Some (w', r) ->
        (forall e, r <> Failed e)
        /\ stats w' = stats w
        /\ wire w' =
             wire w
             ++ [{| to_conn := ws;
                    payload := json_dumps T (InitMsg (summary_stats (stats w)));
                    delivered :=
                      reachable T (json_dumps T (InitMsg (summary_stats (stats w)))) ws |}]
        /\ (r = Returned tt ->
            ((exists e,
                send_text T ws (json_dumps T (InitMsg (summary_stats (stats w))))
                = Failed e)
             \/ (exists k e, (k < fuel)%nat /\ receive_text S ws k = Failed e))
            /\ manager w' = disconnect (connect (manager w) ws) ws
            /\ (mem_conn ws (active (manager w)) = false -> manager w' = manager w))
        /\ (forall b, r = Cancelled b ->
              (send_text T ws (json_dumps T (InitMsg (summary_stats (stats w))))
               = Cancelled b
               \/ (exists k, (k < fuel)%nat /\ receive_text S ws k = Cancelled b))
              /\ manager w' = connect (manager w) ws
              /\ In ws (active (manager w'))))
  /\ (forall k,
        is_returned (receive_text S ws k) = false -> (k < fuel)%nat ->
        websocket_endpoint S T ws fuel w <> None).
Proof.
  unfold websocket_endpoint. split; [|split; [|split]].
  - intros e ->. reflexivity.
  - intros b ->. reflexivity.
  - intros w' r -> H.
    destruct (send_text T ws _) as [u|e|b] eqn:Hs.
    + destruct (receive_loop S ws fuel 0) as [[e|b]|] eqn:Hl; [| |discriminate];
        apply receive_loop_exit in Hl as (k & Hk & Hl); cbn [Nat.add] in Hl;
        injection H as <- <-; cbn [session_close session_open stats wire manager].
      * split; [discriminate|]. split; [reflexivity|]. split; [reflexivity|].
        split; [|discriminate]. intros _. split; [right; now exists k, e|].
        split; [reflexivity|]. intros Hm. now apply disconnect_connect.
      * split; [discriminate|]. split; [reflexivity|]. split; [reflexivity|].
        split; [discriminate|]. intros b' [= <-]. split; [right; now exists k|].
        split; [reflexivity|]. cbn [connect active]. apply in_or_app. right. now left.
    + injection H as <- <-. cbn [session_close session_open stats wire manager].
      split; [discriminate|]. split; [reflexivity|]. split; [reflexivity|].
      split; [|discriminate]. intros _. split; [left; now exists e|].
      split; [reflexivity|]. intros Hm. now apply disconnect_connect.
    + injection H as <- <-. cbn [session_open stats wire manager].
      split; [discriminate|]. split; [reflexivity|]. split; [reflexivity|].
      split; [discriminate|]. intros b' [= <-]. split; [now left|].
      split; [reflexivity|]. cbn [connect active]. apply in_or_app. right. now left.
  - intros k He Hk. destruct (accept S ws); [|discriminate..].
    destruct (send_text T ws _); [|discriminate..].
    pose proof (@receive_loop_finds S ws fuel 0 k He Hk) as Hl.
    destruct (receive_loop S ws fuel 0) as [[e|b]|]; [discriminate..|contradiction].
Qed.

(** X16 on a client that sends two messages and leaves. *)
Lemma websocket_session_witness :
  exists w',
    websocket_endpoint two_messages second_broken 4 3 three_observers
      = Some (w', Returned tt)
    /\ manager w' = manager three_observers.
Proof.
  eexists. split; [reflexivity|].
  destruct (websocket_session two_messages second_broken 4 3 three_observers)
    as (_ & _ & H & _).
  destruct (H _ _ eq_refl eq_refl) as (_ & _ & _ & Hm & _).
  destruct (Hm eq_refl) as (_ & _ & Hk).
  apply Hk. reflexivity.
Defined.

(** A session whose read is cancelled: the endpoint raises the
    cancellation and the websocket stays in the registry. *)
Lemma websocket_cancelled_stays :
  exists w',
    websocket_endpoint cancelled_reader second_broken 4 3 three_observers
      = Some (w', Cancelled (BaseExn "CancelledError" EmptyString))
    /\ active (manager w') = [1; 2; 3; 4]%nat.
Proof. eexists. split; reflexivity. Qed.

(** X17: once a websocket is registered, a delivery from which
    [process_email] returns has attempted to send its event to every
    observer registered before and then to the new one. *)
Theorem new_observer_is_served (U : UnicodeDB) (L : EmailLib) (T : Transport)
    (spam_model : SpamModel) (clock : nat -> str) (ws : Conn)
    (envelope_from : str) (rcpts : list str) (message_bytes : bytes) (w w' : World) :
  process_email U L T spam_model clock envelope_from rcpts message_bytes
    (session_open T ws w) = (w', Returned tt) ->
  exists log,
    wire w' = wire (session_open T ws w) ++ log
    /\ map to_conn log = active (manager w) ++ [ws].
Proof.
  intros H. apply process_email_done in H
    as (parsed & verdict & _ & _ & _ & _ & Hw & Hr & _); [|discriminate].
  eexists. split; [exact Hw|].
  rewrite broadcast_log, map_map; [|now destruct (b_raised _)].
  cbn [to_conn session_open manager connect active].
  apply map_id.
Qed.

(** X17 on the sample delivery after websocket 4 has joined. *)
Lemma new_observer_is_served_witness :
  exists w' log,
    process_email plain_db plain_text_lib second_broken {| pipeline := None |}
      sample_clock [] [lit "me@home.test"] sale_message
      (session_open second_broken 4 three_observers) = (w', Returned tt)
    /\ wire w' = wire (session_open second_broken 4 three_observers) ++ log
    /\ map to_conn log = [1; 2; 3; 4]%nat.
Proof.
  eexists.
  destruct (@new_observer_is_served plain_db plain_text_lib second_broken
              {| pipeline := None |} sample_clock 4 [] [lit "me@home.test"] sale_message
              three_observers _ eq_refl) as (log & Hw & Hl).
  exists log. split; [reflexivity|]. split; [exact Hw|exact Hl].
Defined.

(* ================================================================== *)
(** * More on parsing and on the sender domain *)

Lemma strs_of_strings (l : list str) : strs_of (map CStr l) = Ok l.
Proof.
  induction l as [|s l IH]; [reflexivity|]. cbn [map strs_of]. now rewrite IH.
Qed.

Lemma plain_parts_text (L : EmailLib) (f : EmailMessage L -> str)
    (ps : list (EmailMessage L)) :
  (forall p, In p ps ->
     str_eqb (get_content_type L p) (lit "text/plain") = true ->
     get_content L p = Ok (CStr (f p))) ->
  plain_parts L ps =
  Ok (map CStr
        (map f (filter (fun p => str_eqb (get_content_type L p) (lit "text/plain")) ps))).
Proof.
  induction ps as [|p ps IH]; intros H; [reflexivity|].
  cbn [plain_parts filter].
  destruct (str_eqb (get_content_type L p) (lit "text/plain")) eqn:E.
  - rewrite (H p (or_introl eq_refl) E). cbn [bind].
    rewrite IH by (intros q Hq; apply H; now right). reflexivity.
  - apply IH. intros q Hq. apply H. now right.
Qed.

(** X18: for a multipart message whose text/plain parts have text
    contents, the body is these contents in document order joined by
    newlines; the parts of any other type are never asked for their content,
    so that they cannot make the parsing fail, and without any text/plain
    part the body is the empty string. *)
Theorem multipart_body (L : EmailLib) (msg : EmailMessage L)
    (f : EmailMessage L -> str) :
  is_multipart L msg = true ->
  (forall p, In p (walk L msg) ->
     str_eqb (get_content_type L p) (lit "text/plain") = true ->
     get_content L p = Ok (CStr (f p))) ->
  body_of L msg =
    Ok (CStr (join NEWLINE
                (map f (filter (fun p => str_eqb (get_content_type L p) (lit "text/plain"))
                          (walk L msg)))))
  /\ (filter (fun p => str_eqb (get_content_type L p) (lit "text/plain")) (walk L msg) = [] ->
      body_of L msg = Ok (CStr [])).
Proof.
  intros Hm Hp. unfold body_of. rewrite Hm, (plain_parts_text L f _ Hp). cbn [bind].
  unfold join_contents. rewrite strs_of_strings. cbn [bind].
  split; [reflexivity|]. now intros ->.
Qed.

(** X18 on a message with two text parts around an HTML part whose
    content cannot be extracted. *)
Lemma multipart_body_witness :
  body_of two_part_lib 0%nat = Ok (CStr (lit "a" ++ NEWLINE ++ lit "b")).
Proof.
  destruct (@multipart_body two_part_lib 0%nat
              (fun p => if (p =? 1)%nat then lit "a" else lit "b")) as [H _].
  - reflexivity.
  - intros p Hp. cbn in Hp.
    destruct Hp as [<-|[<-|[<-|[<-|[]]]]]; intros E; try reflexivity; discriminate E.
  - exact H.
Defined.

Lemma lower_from_ascii (U : UnicodeDB) (before s : str) :
  forallb is_ascii s = true -> lower_from U before s = map ascii_lower s.
Proof.
  revert before. induction s as [|c s IH]; intros before H; [reflexivity|].
  cbn [forallb] in H. apply andb_true_iff in H as [Hc Hs].
  cbn [lower_from map]. rewrite Hc. cbn [app]. now rewrite IH.
Qed.

(** What [after_last] returns is the end of the text, behind an
    occurrence of the character, and has no further occurrence. *)
Lemma after_last_suffix (c : codepoint) (s t : str) :
  after_last c s = Some t ->
  has_char c t = false /\ exists pre, s = pre ++ c :: t.
Proof.
  revert t. induction s as [|x s IH]; intros t; [discriminate|].
  cbn [after_last]. destruct (after_last c s) as [t'|] eqn:E.
  - intros [= <-]. destruct (IH t' eq_refl) as (Hn & pre & ->).
    split; [exact Hn|]. now exists (x :: pre).
  - destruct (N.eqb_spec x c) as [->|_]; [|discriminate].
    intros [= <-]. split.
    + rewrite has_char_after_last, E. reflexivity.
    + now exists [].
Qed.

Lemma has_char_at_lower (s : str) :
  has_char AT (map ascii_lower s) = has_char AT s.
Proof.
  induction s as [|x s IH]; [reflexivity|].
  cbn [map has_char existsb]. fold (has_char AT (map ascii_lower s)).
  fold (has_char AT s). rewrite IH. f_equal.
  change AT with 64%N. unfold ascii_lower, in_range.
  destruct (N.leb_spec 65 x); destruct (N.leb_spec x 90); cbn [andb];
    try reflexivity.
  destruct (N.eqb_spec 64 (x + 32)); destruct (N.eqb_spec 64 x); try reflexivity; lia.
Qed.

(** X19: for an ASCII envelope sender with an [@], the counted domain is
    the text after the last [@] with the letters A to Z lowered; it does not
    depend on the From header or on the Unicode tables, and it contains no
    [@]; senders that differ only in the case of their domain count under
    the same key. *)
Theorem envelope_domain_ascii (U : UnicodeDB) (envelope_from parsed_from d : str) :
  forallb is_ascii envelope_from = true ->
  after_last AT envelope_from = Some d ->
  sender_domain_of U envelope_from parsed_from = Some (map ascii_lower d)
  /\ has_char AT (map ascii_lower d) = false.
Proof.
  intros Hascii Hd.
  destruct (after_last_suffix _ _ Hd) as (Hn & pre & ->).
  rewrite forallb_app in Hascii. apply andb_true_iff in Hascii as [_ Hascii].
  cbn [forallb] in Hascii. apply andb_true_iff in Hascii as [_ Hascii].
  split.
  - unfold sender_domain_of. rewrite has_char_after_last, Hd. cbn [is_some].
    rewrite split_on_last, Hd. unfold lower. now rewrite lower_from_ascii.
  - now rewrite has_char_at_lower.
Qed.

(** X19 on a sender with capitals in its domain. *)
Lemma envelope_domain_ascii_witness :
  sender_domain_of plain_db (lit "User@Example.COM") sale_header
  = Some (lit "example.com").
Proof.
  destruct (@envelope_domain_ascii plain_db (lit "User@Example.COM") sale_header
              (lit "Example.COM") eq_refl eq_refl) as [H _].
  exact H.
Defined.

(* ================================================================== *)
(** * More on the pipeline *)

Section PipelineMore.

Variable U : UnicodeDB.
Variable L : EmailLib.
Variable T : Transport.
Variable spam_model : SpamModel.
Variable utcnow_isoformat : nat -> str.

(** X20: [process_email] returns exactly when the parser returns, the
    classifier returns and no send of the event to a registered observer is
    cancelled, so that observers whose send fails with an instance of
    [Exception] cannot make a delivery fail; it raises an instance of
    [Exception] exactly when the parser or the classifier raised it; and
    when it raises anything else, that was raised by the send to a
    registered observer, after the delivery was counted. *)
Theorem process_email_returns_iff (envelope_from : str) (rcpts : list str)
    (message_bytes : bytes) (w : World) :
  (snd (process_email U L T spam_model utcnow_isoformat envelope_from rcpts
          message_bytes w) = Returned tt
   <-> exists parsed verdict,
         parse_email L message_bytes = Ok parsed
         /\ predict U spam_model (Some (text_for_scoring envelope_from parsed)) = Ok verdict
         /\ uncancelled T
              (json_dumps T
                 (event_message U utcnow_isoformat envelope_from rcpts parsed verdict w))
              (active (manager w)) = true)
  /\ (forall e,
        snd (process_email U L T spam_model utcnow_isoformat envelope_from rcpts
               message_bytes w) = Failed e
        <-> (parse_email L message_bytes = Raise e
             \/ exists parsed,
                  parse_email L message_bytes = Ok parsed
                  /\ predict U spam_model (Some (text_for_scoring envelope_from parsed))
                     = Raise e))
  /\ (forall b,
        snd (process_email U L T spam_model utcnow_isoformat envelope_from rcpts
               message_bytes w) = Cancelled b ->
        exists parsed verdict,
          parse_email L message_bytes = Ok parsed
          /\ predict U spam_model (Some (text_for_scoring envelope_from parsed)) = Ok verdict
          /\ total_emails
               (stats (fst (process_email U L T spam_model utcnow_isoformat envelope_from
                              rcpts message_bytes w)))
             = (total_emails (stats w) + 1)%Z
          /\ exists l1 c l2,
               active (manager w) = l1 ++ c :: l2
               /\ uncancelled T
                    (json_dumps T
                       (event_message U utcnow_isoformat envelope_from rcpts parsed
                          verdict w)) l1 = true
               /\ send_text T c
                    (json_dumps T
                       (event_message U utcnow_isoformat envelope_from rcpts parsed
                          verdict w)) = Cancelled b).
Proof.
  unfold event_message.
  destruct (process_email_cases U L T spam_model utcnow_isoformat envelope_from rcpts
              message_bytes w)
    as [(e & E & Hwhy)|(parsed & verdict & Hp & Hv & E)]; rewrite E; cbn [fst snd stats].
  - split; [|split].
    + split; [discriminate|]. intros (parsed & verdict & Hp & Hv & _).
      destruct Hwhy as [He|(parsed' & Hp' & He)]; congruence.
    + intros e'. split.
      * intros [= <-]. exact Hwhy.
      * intros H. f_equal.
        destruct Hwhy as [He|(parsed & Hp & He)], H as [He'|(parsed' & Hp' & He')];
          congruence.
    + discriminate.
  - set (m := EmailEventMsg _ _).
    split; [|split].
    + split.
      * intros H. exists parsed, verdict. split; [exact Hp|]. split; [exact Hv|].
        apply broadcast_returned. fold m. now destruct (b_raised _).
      * intros (parsed' & verdict' & Hp' & Hv' & Hu).
        assert (parsed' = parsed) as -> by congruence.
        assert (verdict' = verdict) as -> by congruence.
        destruct (broadcast_uncancelled T (manager w) m Hu) as (_ & _ & ->).
        reflexivity.
    + intros e. split.
      * intros H. now destruct (b_raised _).
      * intros [He|(parsed' & Hp' & He)]; congruence.
    + intros b H. exists parsed, verdict. split; [exact Hp|]. split; [exact Hv|].
      split; [reflexivity|].
      destruct (uncancelled_or_first T (json_dumps T m) (active (manager w)))
        as [Hu|(l1 & c & l2 & b' & Hl & H1 & Hc)].
      * destruct (broadcast_uncancelled T (manager w) m Hu) as (_ & _ & Hn).
        rewrite Hn in H. discriminate H.
      * destruct (@broadcast_cancelled T (manager w) m l1 l2 c b' Hl H1 Hc)
          as (_ & _ & Hn).
        rewrite Hn in H. injection H as <-. now exists l1, c, l2.
Qed.

(** The history and the clock after one call of the handler. *)
Lemma deliver_step_time (w : World) (envelope : Envelope) :
  (exists event,
     ev_time event = utcnow_isoformat (ticks w) ++ lit "Z"
     /\ events (stats (deliver U L T spam_model utcnow_isoformat w envelope))
        = appendleft EVENTS_MAXLEN event (events (stats w))
     /\ ticks (deliver U L T spam_model utcnow_isoformat w envelope)
        = Datatypes.S (ticks w))
  \/ (events (stats (deliver U L T spam_model utcnow_isoformat w envelope))
      = events (stats w)
      /\ ticks (deliver U L T spam_model utcnow_isoformat w envelope) = ticks w).
Proof.
  assert (Hdone : forall w' r,
             process_email U L T spam_model utcnow_isoformat (mail_from envelope)
               (rcpt_tos envelope) (env_content envelope) w = (w', r) ->
             (forall e, r <> Failed e) ->
             exists event,
               ev_time event = utcnow_isoformat (ticks w) ++ lit "Z"
               /\ events (stats w') = appendleft EVENTS_MAXLEN event (events (stats w))
               /\ ticks w' = Datatypes.S (ticks w)).
  { intros w' r Hp Hr.
    apply process_email_done in Hp
      as (parsed & verdict & _ & _ & Hs & _ & _ & _ & Ht & _); [|exact Hr].
    rewrite Hs, Ht.
    exists (event_of utcnow_isoformat (mail_from envelope) (rcpt_tos envelope)
              parsed verdict w).
    repeat split. }
  unfold deliver, handle_DATA, smtp_callback.
  destruct (process_email U L T spam_model utcnow_isoformat _ _ _ w) as [w' r] eqn:Hp.
  destruct r as [u|e|b]; cbn [fst].
  - left. apply (Hdone w' (Returned u) eq_refl). discriminate.
  - right. apply process_email_failed in Hp as [-> _]. now split.
  - left. apply (Hdone w' (Cancelled b) eq_refl). discriminate.
Qed.

(** X21: in the running application the time stamps in the history are
    the clock readings of the processed deliveries, the latest first, cut at
    200: the event at index i was stamped by the reading number
    [ticks - 1 - i]. *)
Theorem history_time_stamps (envelopes : list Envelope) :
  map ev_time
    (events (stats (deliver_all U L T spam_model utcnow_isoformat envelopes initial_world)))
  = firstn 200
      (map (fun n => utcnow_isoformat n ++ lit "Z")
         (rev (seq 0
                 (ticks (deliver_all U L T spam_model utcnow_isoformat envelopes
                           initial_world))))).
Proof.
  assert (H : forall envs w,
             map ev_time (events (stats w))
             = firstn 200 (map (fun n => utcnow_isoformat n ++ lit "Z")
                             (rev (seq 0 (ticks w)))) ->
             map ev_time
               (events (stats (deliver_all U L T spam_model utcnow_isoformat envs w)))
             = firstn 200
                 (map (fun n => utcnow_isoformat n ++ lit "Z")
                    (rev (seq 0
                            (ticks (deliver_all U L T spam_model utcnow_isoformat envs w)))))).
  { induction envs as [|env envs IH]; intros w Hw; [exact Hw|].
    rewrite deliver_all_cons. apply IH.
    destruct (deliver_step_time w env) as [(event & Ht & He & Hk)|(He & Hk)];
      rewrite He, Hk; [|exact Hw].
    assert (Hlen : (List.length (events (stats w)) <= 200)%nat).
    { rewrite <- (length_map ev_time), Hw. apply firstn_le_length. }
    rewrite (appendleft_firstn (n := 199) _ _ Hlen).
    change (Datatypes.S 199) with 200%nat.
    rewrite <- (firstn_map ev_time).
    cbn [map]. rewrite Hw, Ht, seq_S, rev_app_distr. cbn [rev app map Nat.add].
    exact (firstn_app_firstn 200 [utcnow_isoformat (ticks w) ++ lit "Z"] _). }
  apply H. reflexivity.
Qed.

End PipelineMore.

(** X7 on three sample deliveries from the same domain. *)
Lemma top_domains_exact_witness :
  counter_get (lit "example.com")
    (domains (record_all [sample_update 1; sample_update 2; sample_update 4] initial_stats))
  = 3%Z.
Proof.
  destruct (top_domains_exact [sample_update 1; sample_update 2; sample_update 4])
    as [_ H].
  apply (H (lit "example.com") 3%Z). left. reflexivity.
Defined.

(** X20 on the sample delivery, one of whose observers is broken. *)
Lemma process_email_returns_iff_witness :
  snd (process_email plain_db plain_text_lib second_broken {| pipeline := None |}
         sample_clock [] [lit "me@home.test"] sale_message three_observers)
  = Returned tt.
Proof.
  destruct (process_email_returns_iff plain_db plain_text_lib second_broken
              {| pipeline := None |} sample_clock [] [lit "me@home.test"] sale_message
              three_observers) as [[_ H] _].
  apply H. eexists. eexists. split; [reflexivity|]. split; reflexivity.
Defined.

(** The same delivery when the send to the second observer is cancelled:
    [process_email] raises the cancellation, and the delivery is counted. *)
Lemma process_email_cancelled :
  snd (process_email plain_db plain_text_lib second_cancelled {| pipeline := None |}
         sample_clock [] [lit "me@home.test"] sale_message three_observers)
  = Cancelled (BaseExn "CancelledError" EmptyString)
  /\ total_emails
       (stats (fst (process_email plain_db plain_text_lib second_cancelled
                      {| pipeline := None |} sample_clock [] [lit "me@home.test"]
                      sale_message three_observers)))
     = 1%Z.
Proof. split; reflexivity. Qed.
